(** * download-icons.js: a shallow embedding and its properties

    The script walks a fixed catalog of icons; for each target file it
    checks the disk, asks the primary host, possibly asks the fallback
    host, and prints one progress line.  The embedding keeps that shape:

    - the disk is a finite map from paths to file contents;
    - every externally visible action ([https.get], [fs.writeFileSync],
      [console.log]) is appended to one trace, in program order;
    - the network is an oracle: what [https.get] delivers for a URL may
      depend on all the requests issued before it;
    - [download] recurses on redirects without any bound in the source, so
      the embedding carries fuel and [None] stands for "has not settled".

    What the environment is taken to do: a response stream finishes, with
    ['end'] or with ['error']; each chunk is the string that [data += chunk]
    appends; [console.log] does not throw.  [fs.writeFileSync] may throw:
    whether the write of given data to a given path goes through is a
    property of the environment, fixed over the runs considered, and a
    write that throws leaves the disk as it was.  The creation of the
    output directory at start-up is left out: no property below depends on
    it. *)

From Stdlib Require Import ZArith.
From stdpp Require Import base option list strings gmap fin_maps pretty.

Local Open Scope Z_scope.

(** ** Data model *)

(** One element of the [ICONS] array.  [simpleIconsSlug] is an optional
    property of the object literal. *)
Record Icon := mkIcon {
  key : string;
  hasTheme : bool;
  simpleIconsSlug : option string
}.

Definition icon (k : string) (t : bool) : Icon := mkIcon k t None.
Definition icon_slug (k : string) (t : bool) (s : string) : Icon :=
  mkIcon k t (Some s).

Definition ICONS : list Icon := [
  (* Languages *)
  icon "typescript" false;
  icon "js" false;
  icon "python" false;
  icon "php" false;
  icon "java" false;
  icon_slug "html5" false "html5";
  icon_slug "css3" false "css3";
  icon_slug "rust" false "rust";
  icon_slug "cpp" false "cplusplus";
  (* Runtime *)
  icon "nodejs" false;
  icon "bun" false;
  (* Frontend *)
  icon "react" false;
  icon "nextjs2" true;
  icon "tailwindcss" false;
  icon "shadcn-ui" true;
  icon "radixui" true;
  icon "base-ui" true;
  icon "motion" false;
  icon "tanstack" true;
  (* State Management *)
  icon "mobx-state-tree" false;
  icon "redux" false;
  (* UI Libraries *)
  icon "antd" false;
  (* Navigation *)
  icon "react-router" true;
  icon "react-navigation" false;
  (* Backend *)
  icon "loopback" false;
  icon "laravel" false;
  icon_slug "expressjs" true "express";
  icon_slug "honojs" false "hono";
  (* Database *)
  icon "mysql" false;
  icon "mongodb" false;
  icon "redis" false;
  icon_slug "postgresql" false "postgresql";
  (* ORM *)
  icon_slug "prisma" true "prisma";
  icon_slug "drizzle" false "drizzle";
  (* DevOps *)
  icon "git" false;
  icon "docker" false;
  (* Platforms *)
  icon_slug "vercel" true "vercel";
  icon_slug "aws" false "amazonwebservices";
  icon_slug "supabase" false "supabase";
  (* API *)
  icon_slug "graphql" false "graphql";
  (* Auth *)
  icon_slug "clerk" true "clerk";
  (* Payments *)
  icon_slug "stripe" false "stripe";
  (* Design *)
  icon "figma" false;
  icon "ps" false;
  (* AI *)
  icon "chatgpt" true
].

Definition CHANHDAI_BASE : string :=
  "https://assets.chanhdai.com/images/tech-stack-icons".
Definition SIMPLE_ICONS_BASE : string := "https://cdn.simpleicons.org".

(** JavaScript truthiness of a string: only the empty string is falsy. *)
Definition truthy (s : string) : bool := negb (String.eqb s "").

(** Truthiness of a property that may be [undefined]. *)
Definition truthy_opt (o : option string) : bool :=
  match o with Some s => truthy s | None => false end.

(** ** What [https.get] can deliver *)

(** The response object handed to the callback: its status code, its
    [headers.location] (absent or a string), the chunks of its ['data']
    events and whether the stream finished with ['end'] ([true]) or with
    ['error'] ([false]). *)
Record IncomingMessage := mkResponse {
  statusCode : Z;
  location : option string;
  chunks : list string;
  ended : bool
}.

Inductive GetResult :=
  | RequestError                       (* the request emits 'error' *)
  | Response (r : IncomingMessage).    (* the callback runs with [r] *)

(** Why a promise of [download] is rejected. *)
Inductive Error :=
  | HTTP (status : Z)                  (* new Error(`HTTP ${statusCode}`) *)
  | Transport.                         (* an 'error' event *)

Inductive Settled :=
  | Resolved (data : string)
  | Rejected (e : Error).

(** ** The world *)

Inductive Event :=
  | Get (url : string)                 (* a request is issued *)
  | Write (path data : string)         (* a write that went through *)
  | Log (line : string).               (* a line is printed *)

Record World := mkWorld {
  files : gmap string string;
  trace : list Event
}.

Definition requests (tr : list Event) : list string :=
  omap (fun e => match e with Get u => Some u | _ => None end) tr.

Definition logs (tr : list Event) : list string :=
  omap (fun e => match e with Log l => Some l | _ => None end) tr.

Definition writes (tr : list Event) : list (string * string) :=
  omap (fun e => match e with Write p d => Some (p, d) | _ => None end) tr.

(** The network: the answer to a request, given the URLs requested so far. *)
Definition Network := list string -> string -> GetResult.

(** ** A monad for the script's effects

    [None] means that the computation has not produced its value within
    the fuel it was given. *)
Definition M (A : Type) : Type := World -> option (A * World).

Definition ret {A} (a : A) : M A := fun w => Some (a, w).

Definition bind {A B} (m : M A) (k : A -> M B) : M B :=
  fun w => match m w with
           | Some (a, w') => k a w'
           | None => None
           end.

Declare Scope M_scope.
Delimit Scope M_scope with M.
Notation "x <- m ;; k" := (bind m (fun x => k))
  (at level 100, m at next level, right associativity) : M_scope.
Notation "m ;;; k" := (bind m (fun _ => k))
  (at level 100, right associativity) : M_scope.

Definition emit (e : Event) : M unit :=
  fun w => Some (tt, mkWorld (files w) (trace w ++ [e])).

Definition existsSync (path : string) : M bool :=
  fun w => Some (bool_decide (is_Some (files w !! path)), w).

(** How a call that may throw completes. *)
Inductive Completion :=
  | Returned
  | Threw.

(** [fs.writeFileSync(path, data)].  [writable path data] tells whether
    the environment lets the write go through; when it does not, the call
    throws and neither the disk nor the trace changes. *)
Definition writeFileSync (writable : string -> string -> bool)
    (path data : string) : M Completion :=
  fun w => if writable path data
           then Some (Returned, mkWorld (<[path := data]> (files w))
                                        (trace w ++ [Write path data]))
           else Some (Threw, w).

Definition console_log (line : string) : M unit := emit (Log line).

Definition https_get (net : Network) (url : string) : M GetResult :=
  fun w => Some (net (requests (trace w)) url,
                 mkWorld (files w) (trace w ++ [Get url])).

(** [data += chunk] over all the chunks, starting from [''] *)
Definition accumulate (cs : list string) : string :=
  foldl String.append "" cs.

(** The redirect test of [download]; it yields the URL to follow. *)
Definition redirect (r : IncomingMessage) : option string :=
  match location r with
  | Some l =>
      if (300 <=? statusCode r) && (statusCode r <? 400) && truthy l
      then Some l else None
  | None => None
  end.

(** The four progress lines that [downloadIcon] can print for a file. *)
Inductive progress_line (f : string) : string -> Prop :=
  | line_exists : progress_line f ("✓ " +:+ f +:+ " (exists)")
  | line_chanhdai : progress_line f ("✓ " +:+ f +:+ " (chanhdai)")
  | line_simpleicons : progress_line f ("✓ " +:+ f +:+ " (simpleicons)")
  | line_not_found : progress_line f ("✗ " +:+ f +:+ " (not found)").

Section Script.

Local Open Scope M_scope.

(** [__dirname] is only known when the script runs, and [path.join] is
    Node's; both are taken as given. *)
Variable OUTPUT_DIR : string.
Variable path_join : string -> string -> string.
Variable net : Network.

(** Which writes the environment lets through (see [writeFileSync]). *)
Variable writable : string -> string -> bool.

(** The two constants computed at the top of [downloadIcon]. *)
Definition filename (key0 suffix : string) : string :=
  if truthy suffix then key0 +:+ suffix +:+ ".svg" else key0 +:+ ".svg".

Definition outputPath (key0 suffix : string) : string :=
  path_join OUTPUT_DIR (filename key0 suffix).

Fixpoint download (fuel : nat) (url : string) : M Settled :=
  match fuel with
  | O => fun _ => None
  | S fuel' =>
      got <- https_get net url;;
      match got with
      | RequestError => ret (Rejected Transport)
      | Response response =>
          match redirect response with
          | Some next => download fuel' next
          | None =>
              if negb (statusCode response =? 200)
              then ret (Rejected (HTTP (statusCode response)))
              else if ended response
                   then ret (Resolved (accumulate (chunks response)))
                   else ret (Rejected Transport)
          end
      end
  end.

(** The body of the outer [catch] of [downloadIcon], with the inner
    [try] and [catch]: the fallback host is asked when the catalog gives a
    slug for the key and the suffix is empty.  The inner [catch] takes a
    rejected [download] and a write that throws. *)
Definition recover (fuel : nat) (icons : list Icon)
    (key0 : string) (suffix : string) : M bool :=
  let filename := filename key0 suffix in
  let outputPath := outputPath key0 suffix in
  let found := find (fun i => String.eqb (key i) key0) icons in
  let slug := found ≫= simpleIconsSlug in
  if truthy_opt slug && negb (truthy suffix) then
    let url := SIMPLE_ICONS_BASE +:+ "/" +:+ default "" slug in
    fallback <- download fuel url;;
    match fallback with
    | Resolved svg =>
        wrote <- writeFileSync writable outputPath svg;;
        match wrote with
        | Returned =>
            console_log ("✓ " +:+ filename +:+ " (simpleicons)");;;
            ret true
        | Threw =>
            console_log ("✗ " +:+ filename +:+ " (not found)");;;
            ret false
        end
    | Rejected _ =>
        console_log ("✗ " +:+ filename +:+ " (not found)");;;
        ret false
    end
  else
    console_log ("✗ " +:+ filename +:+ " (not found)");;;
    ret false.

(** [downloadIcon(key, suffix = '')].  [icons] is the array the function
    searches with [ICONS.find]; the script runs with [icons := ICONS].
    The outer [catch] ([recover]) is entered when the primary [download]
    rejects and when the write of its body throws. *)
Definition downloadIcon (fuel : nat) (icons : list Icon)
    (key0 : string) (suffix : string) : M bool :=
  let filename := filename key0 suffix in
  let outputPath := outputPath key0 suffix in
  present <- existsSync outputPath;;
  if present then
    console_log ("✓ " +:+ filename +:+ " (exists)");;;
    ret true
  else
    let url := CHANHDAI_BASE +:+ "/" +:+ filename in
    primary <- download fuel url;;
    match primary with
    | Resolved svg =>
        wrote <- writeFileSync writable outputPath svg;;
        match wrote with
        | Returned =>
            console_log ("✓ " +:+ filename +:+ " (chanhdai)");;;
            ret true
        | Threw => recover fuel icons key0 suffix
        end
    | Rejected _ => recover fuel icons key0 suffix
    end.

(** The two counters of [main]. *)
Record Counters := mkCounters { success : nat; failed : nat }.

Definition count (ok : bool) (c : Counters) : Counters :=
  if ok then mkCounters (S (success c)) (failed c)
  else mkCounters (success c) (S (failed c)).

(** The body of the [for ... of] loop of [main]. *)
Definition main_body (fuel : nat) (icons : list Icon) (i : Icon)
    (c : Counters) : M Counters :=
  if hasTheme i then
    lightOk <- downloadIcon fuel icons (key i) "-light";;
    darkOk <- downloadIcon fuel icons (key i) "-dark";;
    ret (count (lightOk && darkOk) c)
  else
    ok <- downloadIcon fuel icons (key i) "";;
    ret (count ok c).

(** The loop itself, over the elements still to visit. *)
Fixpoint main_loop (fuel : nat) (icons rest : list Icon)
    (c : Counters) : M Counters :=
  match rest with
  | [] => ret c
  | i :: rest' =>
      c' <- main_body fuel icons i c;;
      main_loop fuel icons rest' c'
  end.

Definition nl : string := String (Ascii.ascii_of_nat 10) "".

Definition main (fuel : nat) (icons : list Icon) : M Counters :=
  console_log ("Downloading tech stack icons..." +:+ nl);;;
  console_log ("Output: " +:+ OUTPUT_DIR +:+ nl);;;
  c <- main_loop fuel icons icons (mkCounters 0 0);;
  console_log (nl +:+ "Done! " +:+ pretty (success c) +:+
               " icons downloaded, " +:+ pretty (failed c) +:+ " failed.");;;
  console_log (nl +:+ "Next steps:");;;
  console_log "1. For missing icons, download manually from https://simpleicons.org";;;
  console_log "2. For themed icons, create -light.svg and -dark.svg variants";;;
  console_log "3. Update tech-stack.tsx to use /images/tech-stack-icons/ instead of external CDN";;;
  ret c.

(** ** Vocabulary of the properties *)

(** The URL of a target file on the primary host. *)
Definition primary_url (key0 suffix : string) : string :=
  CHANHDAI_BASE +:+ "/" +:+ filename key0 suffix.

(** The URL of a slug on the fallback host. *)
Definition fallback_url (slug : string) : string :=
  SIMPLE_ICONS_BASE +:+ "/" +:+ slug.

(** The world after some more events, the disk being as given. *)
Definition after (w : World) (fs : gmap string string) (evs : list Event) : World :=
  mkWorld fs (trace w ++ evs).

(** The slug that [downloadIcon] would use for the fallback, if any. *)
Definition eligible_slug (icons : list Icon) (key0 suffix : string) : option string :=
  let slug := find (fun i => String.eqb (key i) key0) icons ≫= simpleIconsSlug in
  if truthy_opt slug && negb (truthy suffix) then slug else None.

(** A [try] block of [downloadIcon] fails, leaving the world [w1]: the
    fetch is rejected, or it resolves and the write of its body throws. *)
Definition fails (fuel : nat) (url path : string) (w w1 : World) : Prop :=
  (exists e, download fuel url w = Some (Rejected e, w1)) \/
  (exists svg, download fuel url w = Some (Resolved svg, w1) /\
               writable path svg = false).

(** The five ways in which a call of [downloadIcon] can return. *)
Inductive resolution (icons : list Icon) (fuel : nat) (key0 suffix : string)
    (w : World) :
    bool -> World -> Prop :=
  | res_exists :
      is_Some (files w !! outputPath key0 suffix) ->
      resolution icons fuel key0 suffix w true
        (after w (files w) [Log ("✓ " +:+ filename key0 suffix +:+ " (exists)")])
  | res_primary svg w1 :
      files w !! outputPath key0 suffix = None ->
      download fuel (primary_url key0 suffix) w = Some (Resolved svg, w1) ->
      writable (outputPath key0 suffix) svg = true ->
      resolution icons fuel key0 suffix w true
        (after w1 (<[outputPath key0 suffix := svg]> (files w1))
           [Write (outputPath key0 suffix) svg;
            Log ("✓ " +:+ filename key0 suffix +:+ " (chanhdai)")])
  | res_fallback w1 slug svg w2 :
      files w !! outputPath key0 suffix = None ->
      fails fuel (primary_url key0 suffix) (outputPath key0 suffix) w w1 ->
      eligible_slug icons key0 suffix = Some slug ->
      download fuel (fallback_url slug) w1 = Some (Resolved svg, w2) ->
      writable (outputPath key0 suffix) svg = true ->
      resolution icons fuel key0 suffix w true
        (after w2 (<[outputPath key0 suffix := svg]> (files w2))
           [Write (outputPath key0 suffix) svg;
            Log ("✓ " +:+ filename key0 suffix +:+ " (simpleicons)")])
  | res_fallback_failed w1 slug w2 :
      files w !! outputPath key0 suffix = None ->
      fails fuel (primary_url key0 suffix) (outputPath key0 suffix) w w1 ->
      eligible_slug icons key0 suffix = Some slug ->
      fails fuel (fallback_url slug) (outputPath key0 suffix) w1 w2 ->
      resolution icons fuel key0 suffix w false
        (after w2 (files w2)
           [Log ("✗ " +:+ filename key0 suffix +:+ " (not found)")])
  | res_not_found w1 :
      files w !! outputPath key0 suffix = None ->
      fails fuel (primary_url key0 suffix) (outputPath key0 suffix) w w1 ->
      eligible_slug icons key0 suffix = None ->
      resolution icons fuel key0 suffix w false
        (after w1 (files w1)
           [Log ("✗ " +:+ filename key0 suffix +:+ " (not found)")]).

(** The events of one call of [downloadIcon]: either the single line
    "exists", or a request to the primary host followed by further
    requests and at most writes to the target, closed by the progress line
    of that target. *)
Definition quiet_on (path : string) (e : Event) : Prop :=
  match e with
  | Get _ => True
  | Write p _ => p = path
  | Log _ => False
  end.

Inductive attempt_block (key0 suffix : string) : list Event -> Prop :=
  | block_exists :
      attempt_block key0 suffix
        [Log ("✓ " +:+ filename key0 suffix +:+ " (exists)")]
  | block_fetch evs line :
      Forall (quiet_on (outputPath key0 suffix)) evs ->
      progress_line (filename key0 suffix) line ->
      attempt_block key0 suffix
        (Get (primary_url key0 suffix) :: evs ++ [Log line]).

(** What [main] prints before and after the loop. *)
Definition banner : list Event :=
  [Log ("Downloading tech stack icons..." +:+ nl);
   Log ("Output: " +:+ OUTPUT_DIR +:+ nl)].

Definition summary (c : Counters) : list Event :=
  [Log (nl +:+ "Done! " +:+ pretty (success c) +:+
        " icons downloaded, " +:+ pretty (failed c) +:+ " failed.");
   Log (nl +:+ "Next steps:");
   Log "1. For missing icons, download manually from https://simpleicons.org";
   Log "2. For themed icons, create -light.svg and -dark.svg variants";
   Log "3. Update tech-stack.tsx to use /images/tech-stack-icons/ instead of external CDN"].

End Script.


Arguments download net !fuel url w : simpl nomatch.

(** Redirect chains.  [follows net h url urls final]: starting from [url]
    with [h] already requested, the requests [urls] are issued one after
    the other, each but the last answered by a redirect that is followed,
    and the last one gets [final]. *)
Inductive follows (net : Network) :
    list string -> string -> list string -> GetResult -> Prop :=
  | follows_error h url :
      net h url = RequestError ->
      follows net h url [url] RequestError
  | follows_last h url r :
      net h url = Response r ->
      redirect r = None ->
      follows net h url [url] (Response r)
  | follows_redirect h url r next urls final :
      net h url = Response r ->
      redirect r = Some next ->
      follows net (h ++ [url]) next urls final ->
      follows net h url (url :: urls) final.

(** How the promise settles once the final answer is in. *)
Definition settle (final : GetResult) : Settled :=
  match final with
  | RequestError => Rejected Transport
  | Response r =>
      if negb (statusCode r =? 200) then Rejected (HTTP (statusCode r))
      else if ended r then Resolved (accumulate (chunks r))
      else Rejected Transport
  end.

(** A transport-level error: the request fails, or the body stream does. *)
Definition transport_error (final : GetResult) : Prop :=
  match final with
  | RequestError => True
  | Response r => ended r = false
  end.

Definition final_status_not_200 (final : GetResult) : Prop :=
  match final with
  | RequestError => False
  | Response r => statusCode r <> 200
  end.

Definition is_rejected (s : Settled) : Prop :=
  match s with Rejected _ => True | Resolved _ => False end.

(** The target files of a catalog, in the order the claims speak of:
    catalog order, and light before dark. *)
Definition targets_of (i : Icon) : list (string * string) :=
  if hasTheme i then [(key i, "-light"); (key i, "-dark")] else [(key i, "")].

Definition targets (icons : list Icon) : list (string * string) :=
  icons ≫= targets_of.

(** A network is stable when its answers ignore the request history. *)
Definition stable (net : Network) : Prop :=
  forall h h' url, net h url = net h' url.

(** Every redirect chain of the network ends within [d] requests. *)
Definition bounded (net : Network) (d : nat) : Prop :=
  forall h url, exists urls final,
    follows net h url urls final /\ (length urls <= d)%nat.

(** The disk after the writes of a list of events. *)
Fixpoint replay (fs : gmap string string) (evs : list Event) : gmap string string :=
  match evs with
  | [] => fs
  | Write p d :: evs' => replay (<[p := d]> fs) evs'
  | _ :: evs' => replay fs evs'
  end.

(** Every write of the list goes to a path that is not on disk at the
    moment of the write. *)
Fixpoint writes_fresh (fs : gmap string string) (evs : list Event) : Prop :=
  match evs with
  | [] => True
  | Write p d :: evs' => fs !! p = None /\ writes_fresh (<[p := d]> fs) evs'
  | _ :: evs' => writes_fresh fs evs'
  end.

(** [w'] is [w] after the events [evs]: the trace grew by [evs], the
    disk is what the writes of [evs] make of it, and none of them hit a
    path that was on disk. *)
Definition extends (w w' : World) (evs : list Event) : Prop :=
  trace w' = trace w ++ evs /\
  files w' = replay (files w) evs /\
  writes_fresh (files w) evs.

(** ** Sample worlds

    A directory and a join without normalisation (enough for the keys of
    the catalog), an empty disk, and a few networks. *)
Module Sample.

Definition dir : string := "public/images/tech-stack-icons".
Definition join (a b : string) : string := a +:+ "/" +:+ b.
Definition empty_disk : World := mkWorld ∅ [].

(** Every write goes through. *)
Definition sound : string -> string -> bool := fun _ _ => true.

Definition ok (body : list string) : GetResult :=
  Response (mkResponse 200 None body true).
Definition missing : GetResult :=
  Response (mkResponse 404 None ["Not Found"] true).
Definition moved (status : Z) (to : string) : GetResult :=
  Response (mkResponse status (Some to) [] true).

(** Nothing is found anywhere. *)
Definition net_404 : Network := fun _ _ => missing.

(** Every URL is served. *)
Definition net_200 : Network := fun _ url => ok ["<svg>"; url; "</svg>"].

(** The scenario of the catalog entry [rust]: the primary host has no
    [rust.svg], the fallback host serves the slug [rust]. *)
Definition net_rust : Network := fun _ url =>
  if String.eqb url "https://cdn.simpleicons.org/rust"
  then ok ["<svg>"; "...</svg>"] else missing.

(** The primary host redirects [rust.svg] to a mirror that serves it. *)
Definition mirror : string := "https://mirror.example/rust.svg".
Definition net_mirror : Network := fun _ url =>
  if String.eqb url (primary_url "rust" "") then moved 302 mirror
  else if String.eqb url mirror then ok ["<svg>mirror</svg>"]
  else missing.

(** Every answer is a 302 whose Location header is empty. *)
Definition net_empty_location : Network := fun _ _ => moved 302 "".

(** Every URL redirects to itself. *)
Definition net_loop : Network := fun _ url => moved 301 url.

(** Only the light variant of [nextjs2] is served. *)
Definition net_light_only : Network := fun _ url =>
  if String.eqb url (primary_url "nextjs2" "-light")
  then ok ["<svg>light</svg>"] else missing.

(** The first [n] requests are answered by a redirect, the next one by
    the file. *)
Definition elsewhere : string := "https://mirror.example/elsewhere.svg".
Definition net_hops (n : nat) : Network := fun h _ =>
  if (length h <? n)%nat then moved 307 elsewhere else ok ["<svg>far</svg>"].

(** A disk on which [rust.svg] is already present, with some content. *)
Definition disk_with_rust : World :=
  mkWorld {[ join dir "rust.svg" := "anything at all" ]} [].

(** A two-entry catalog, one themed and one not. *)
Definition two_icons : list Icon :=
  [icon "nextjs2" true; icon_slug "rust" false "rust"].

End Sample.

(** ** Vocabulary of the further properties *)

(** An entry is complete on a disk when all its target files are there. *)
Definition complete (OUTPUT_DIR : string)
    (path_join : string -> string -> string)
    (fs : gmap string string) (i : Icon) : bool :=
  forallb
    (fun t => bool_decide
                (is_Some (fs !! outputPath OUTPUT_DIR path_join t.1 t.2)))
    (targets_of i).

(** The network never answers with status 200. *)
Definition never_200 (net : Network) : Prop :=
  forall h url r, net h url = Response r -> statusCode r <> 200.

(** Whatever was requested before, [url] answers with a redirect to
    itself. *)
Definition loops_at (net : Network) (url : string) : Prop :=
  forall h, exists r, net h url = Response r /\ redirect r = Some url.

(** More sample networks. *)
Module Scenario.

(** No write goes through (a read-only output directory). *)
Definition read_only : string -> string -> bool := fun _ _ => false.

(** Only data of fewer than ten characters can be written. *)
Definition small_files_only : string -> string -> bool :=
  fun _ data => (String.length data <? 10)%nat.

(** The primary host serves a long body, the fallback host a short one. *)
Definition net_long_then_short : Network := fun _ url =>
  if String.prefix CHANHDAI_BASE url
  then Sample.ok ["<svg>a detailed icon</svg>"]
  else Sample.ok ["<svg/>"].

(** No connection can be made. *)
Definition net_offline : Network := fun _ _ => RequestError.

(** "201 Created" with a Location header and a body. *)
Definition created : IncomingMessage :=
  mkResponse 201 (Some "https://mirror.example/new.svg") ["<svg/>"] true.
Definition net_created : Network := fun _ _ => Response created.

(** "200 OK" with a Location header: the header is not looked at. *)
Definition ok_with_location : IncomingMessage :=
  mkResponse 200 (Some "https://mirror.example/other.svg")
    ["<svg>"; "here"; "</svg>"] true.
Definition net_ok_with_location : Network :=
  fun _ _ => Response ok_with_location.

(** The primary host serves everything, the fallback host nothing. *)
Definition net_primary_only : Network := fun _ url =>
  if String.prefix CHANHDAI_BASE url then Sample.ok ["<svg>primary</svg>"]
  else Sample.missing.

(** A catalog in which the key [rust] occurs twice; only the second entry
    declares a slug. *)
Definition twice_rust : list Icon :=
  [icon "rust" false; icon_slug "rust" false "rust"].

(** A disk that holds the light variant of [nextjs2] only. *)
Definition disk_with_light : World :=
  mkWorld {[ Sample.join Sample.dir "nextjs2-light.svg" := "<svg>old</svg>" ]} [].

End Scenario.

(** * Properties *)

#[local] Arguments String.append : simpl never.

(** ** Traces *)

Lemma requests_app (a b : list Event) :
  requests (a ++ b) = requests a ++ requests b.
Proof. apply omap_app. Qed.

Lemma logs_app (a b : list Event) : logs (a ++ b) = logs a ++ logs b.
Proof. apply omap_app. Qed.

Lemma writes_app (a b : list Event) : writes (a ++ b) = writes a ++ writes b.
Proof. apply omap_app. Qed.

Lemma requests_gets (urls : list string) : requests (map Get urls) = urls.
Proof. induction urls as [|u urls IH]; simpl; [done | by rewrite IH]. Qed.

Lemma logs_gets (urls : list string) : logs (map Get urls) = [].
Proof. induction urls as [|u urls IH]; simpl; done. Qed.

Lemma writes_gets (urls : list string) : writes (map Get urls) = [].
Proof. induction urls as [|u urls IH]; simpl; done. Qed.

Lemma after_nil (w : World) : after w (files w) [] = w.
Proof. destruct w as [fs tr]. unfold after; simpl. by rewrite app_nil_r. Qed.

Lemma after_after (w : World) fs fs' evs evs' :
  after (after w fs evs) fs' evs' = after w fs' (evs ++ evs').
Proof. unfold after; simpl. by rewrite app_assoc. Qed.

Lemma replay_app fs (a b : list Event) :
  replay fs (a ++ b) = replay (replay fs a) b.
Proof.
  revert fs. induction a as [|[u|p d|l] a IH]; intros fs; simpl; by rewrite ?IH.
Qed.

Lemma writes_fresh_app fs (a b : list Event) :
  writes_fresh fs (a ++ b) <-> writes_fresh fs a /\ writes_fresh (replay fs a) b.
Proof.
  revert fs. induction a as [|[u|p d|l] a IH]; intros fs; simpl;
    rewrite ?IH; tauto.
Qed.

Lemma replay_gets fs (urls : list string) : replay fs (map Get urls) = fs.
Proof. induction urls; simpl; done. Qed.

Lemma writes_fresh_gets fs (urls : list string) : writes_fresh fs (map Get urls).
Proof. induction urls; simpl; done. Qed.

Lemma extends_nil (w : World) : extends w w [].
Proof. unfold extends; simpl. by rewrite app_nil_r. Qed.

Lemma extends_app (w w1 w2 : World) a b :
  extends w w1 a -> extends w1 w2 b -> extends w w2 (a ++ b).
Proof.
  intros (T1 & F1 & W1) (T2 & F2 & W2). unfold extends.
  rewrite T2, T1, <- app_assoc, replay_app, <- F1, writes_fresh_app, <- F1.
  done.
Qed.

Lemma extends_log (w : World) line :
  extends w (after w (files w) [Log line]) [Log line].
Proof. by unfold extends. Qed.

Lemma extends_write (w : World) p d line :
  files w !! p = None ->
  extends w (after w (<[p := d]> (files w)) [Write p d; Log line])
    [Write p d; Log line].
Proof. by unfold extends. Qed.

Lemma extends_subseteq (w w' : World) evs :
  extends w w' evs -> files w ⊆ files w'.
Proof.
  intros (_ & -> & Hw). revert Hw. generalize (files w).
  induction evs as [|[u|p d|l] evs IH]; intros fs Hw; simpl in *; auto.
  destruct Hw as [Hp Hw]. etrans; [|by apply IH]. by apply insert_subseteq.
Qed.

(** ** The fetch primitive *)

Section Download.

Variable net : Network.

(** A chain that ends is followed to its end, whatever its length. *)
Lemma download_follows h url urls final :
  follows net h url urls final ->
  forall (w : World) (k : nat),
    requests (trace w) = h ->
    download net (length urls + k) url w
    = Some (settle final, after w (files w) (map Get urls)).
Proof.
  induction 1 as [h url Hn | h url r Hn Hr | h url r next urls final Hn Hr _ IH];
    intros w k Hw; simpl; unfold bind, https_get; rewrite Hw, Hn; simpl.
  - done.
  - rewrite Hr. unfold ret.
    by destruct (statusCode r =? 200), (ended r).
  - rewrite Hr, (IH (mkWorld (files w) (trace w ++ [Get url])) k).
    + unfold after; simpl. by rewrite <- app_assoc.
    + simpl. by rewrite requests_app, Hw.
Qed.

(** Conversely, a settled promise comes from a chain that ended. *)
Lemma download_inv fuel : forall url (w : World) s w',
  download net fuel url w = Some (s, w') ->
  exists urls final,
    follows net (requests (trace w)) url urls final /\
    (length urls <= fuel)%nat /\
    s = settle final /\
    w' = after w (files w) (map Get urls).
Proof.
  induction fuel as [|fuel IH]; intros url w s w' H; simpl in H; [done|].
  unfold bind, https_get in H.
  destruct (net (requests (trace w)) url) as [|r] eqn:Hn.
  - inversion H; subst. exists [url], RequestError.
    split; [by constructor|]. split; [simpl; lia|]. done.
  - destruct (redirect r) as [next|] eqn:Hr.
    + apply IH in H as (urls & final & Hf & Hl & -> & ->).
      exists (url :: urls), final. simpl in Hf. rewrite requests_app in Hf.
      split; [by eapply follows_redirect|]. split; [simpl; lia|].
      split; [done|]. unfold after; simpl. by rewrite <- app_assoc.
    + exists [url], (Response r). split; [by constructor|].
      split; [simpl; lia|]. simpl.
      unfold ret in H.
      by destruct (statusCode r =? 200), (ended r); inversion H; subst.
Qed.

(** More fuel does not change a settled promise. *)
Lemma download_mono fuel url (w : World) x (k : nat) :
  download net fuel url w = Some x ->
  download net (fuel + k) url w = Some x.
Proof.
  destruct x as [s w']. intros H.
  apply download_inv in H as (urls & final & Hf & Hl & -> & ->).
  replace (fuel + k)%nat with (length urls + (fuel - length urls + k))%nat by lia.
  by eapply download_follows.
Qed.

Lemma extends_gets (w : World) (urls : list string) :
  extends w (after w (files w) (map Get urls)) (map Get urls).
Proof.
  unfold extends; simpl.
  rewrite replay_gets. split; [done|]. split; [done|]. apply writes_fresh_gets.
Qed.

(** [download] touches no file and prints nothing: it only requests. *)
Lemma download_world fuel url (w : World) s w' :
  download net fuel url w = Some (s, w') ->
  exists urls, w' = after w (files w) (map Get (url :: urls)).
Proof.
  intros H. apply download_inv in H as (urls & final & Hf & _ & _ & ->).
  inversion Hf; subst; eauto.
Qed.

(** A chain has one final answer and one list of requests. *)
Lemma follows_det h url urls final urls' final' :
  follows net h url urls final ->
  follows net h url urls' final' ->
  urls = urls' /\ final = final'.
Proof.
  intros H. revert urls' final'.
  induction H as [h url Hn | h url r Hn Hr | h url r next urls final Hn Hr _ IH];
    intros urls' final' H'; inversion H'; subst;
    repeat match goal with
    | H1 : net h url = _, H2 : net h url = _ |- _ =>
        rewrite H1 in H2; inversion H2; subst; clear H2
    | H1 : redirect ?r = _, H2 : redirect ?r = _ |- _ =>
        rewrite H1 in H2; inversion H2; subst; clear H2
    end; try done.
  match goal with
  | Hf' : follows net (_ ++ _) _ _ _ |- _ => destruct (IH _ _ Hf') as [-> ->]
  end.
  done.
Qed.

(** The redirect test: status in [300,400) and a non-empty Location. *)
Lemma redirect_spec (r : IncomingMessage) next :
  redirect r = Some next <->
  300 <= statusCode r < 400 /\ location r = Some next /\ next <> "".
Proof.
  unfold redirect, truthy.
  destruct (location r) as [l|]; [|split; [done | by intros (_ & ? & _)]].
  destruct (Z.leb_spec 300 (statusCode r)) as [E1|E1]; simpl;
    [|split; [done | lia]].
  destruct (Z.ltb_spec (statusCode r) 400) as [E2|E2]; simpl;
    [|split; [done | lia]].
  destruct (String.eqb_spec l "") as [->|E3]; simpl.
  - split; [done|]. intros (_ & Hl & Hne). by inversion Hl.
  - split.
    + intros Hl. by inversion Hl; subst.
    + intros (_ & Hl & _). done.
Qed.

(** One redirect: the promise of the call is the promise of the call on
    the new URL. *)
Lemma download_redirect fuel url (w : World) r next :
  net (requests (trace w)) url = Response r ->
  redirect r = Some next ->
  download net (S fuel) url w
  = download net fuel next (after w (files w) [Get url]).
Proof.
  intros Hn Hr. simpl. unfold bind, https_get. by rewrite Hn, Hr.
Qed.

(** A URL that always redirects to itself never settles. *)
Lemma download_loop url :
  (forall h, exists r, net h url = Response r /\ redirect r = Some url) ->
  forall fuel (w : World), download net fuel url w = None.
Proof.
  intros Hloop. induction fuel as [|fuel IH]; intros w; [done|].
  destruct (Hloop (requests (trace w))) as (r & Hn & Hr).
  rewrite (download_redirect _ _ _ _ _ Hn Hr). apply IH.
Qed.

End Download.

(** Chains of any length: [net_hops n] answers [n] redirects and then the
    file; the promise resolves after [n + 1] requests. *)
Lemma download_hops n m : forall (k : nat) url (w : World),
  (length (requests (trace w)) + m = n)%nat ->
  exists w',
    download (Sample.net_hops n) (S m + k) url w
    = Some (Resolved "<svg>far</svg>", w') /\
    length (requests (trace w')) = S n.
Proof.
  induction m as [|m IH]; intros k url w Hlen.
  - eexists. split.
    + simpl. unfold bind, https_get, Sample.net_hops.
      replace (length (requests (trace w)) <? n)%nat with false
        by (symmetry; apply Nat.ltb_ge; lia).
      reflexivity.
    + simpl. rewrite requests_app, length_app. simpl. lia.
  - rewrite (download_redirect _ (S m + k) url w
               (mkResponse 307 (Some Sample.elsewhere) [] true)
               Sample.elsewhere).
    + apply IH. simpl. rewrite requests_app, length_app. simpl. lia.
    + unfold Sample.net_hops.
      replace (length (requests (trace w)) <? n)%nat with true
        by (symmetry; apply Nat.ltb_lt; lia).
      reflexivity.
    + reflexivity.
Qed.

(** ** Resolving one target file *)

Section DownloadIcon.

Variable OUTPUT_DIR : string.
Variable path_join : string -> string -> string.
Variable net : Network.
Variable writable : string -> string -> bool.
Variable icons : list Icon.

Abbreviation outputPath := (outputPath OUTPUT_DIR path_join).
Abbreviation downloadIcon := (downloadIcon OUTPUT_DIR path_join net writable).
Abbreviation recover := (recover OUTPUT_DIR path_join net writable).
Abbreviation fails := (fails net writable).
Abbreviation eligible_slug := (eligible_slug icons).
Abbreviation resolution := (resolution OUTPUT_DIR path_join net writable icons).

Ltac run :=
  unfold downloadIcon, recover, bind, ret, existsSync, writeFileSync,
    console_log, emit.

Ltac absent Hn :=
  rewrite bool_decide_eq_false_2 by (rewrite Hn; by intros [? ?]).

(** The [catch] body, case by case. *)
Lemma recover_not_found fuel key0 suffix (w1 : World) :
  eligible_slug key0 suffix = None ->
  recover fuel icons key0 suffix w1
  = Some (false, after w1 (files w1)
                   [Log ("✗ " +:+ filename key0 suffix +:+ " (not found)")]).
Proof.
  intros He. run. unfold eligible_slug in He.
  destruct (find _ icons ≫= simpleIconsSlug) as [slug|]; simpl in *; [|done].
  by destruct (truthy slug && negb (truthy suffix)).
Qed.

Lemma recover_unfold fuel key0 suffix slug (w1 : World) :
  eligible_slug key0 suffix = Some slug ->
  recover fuel icons key0 suffix w1
  = match download net fuel (fallback_url slug) w1 with
    | Some (Resolved svg, w2) =>
        if writable (outputPath key0 suffix) svg
        then Some (true,
                   after w2 (<[outputPath key0 suffix := svg]> (files w2))
                     [Write (outputPath key0 suffix) svg;
                      Log ("✓ " +:+ filename key0 suffix +:+ " (simpleicons)")])
        else Some (false,
                   after w2 (files w2)
                     [Log ("✗ " +:+ filename key0 suffix +:+ " (not found)")])
    | Some (Rejected _, w2) =>
        Some (false,
              after w2 (files w2)
                [Log ("✗ " +:+ filename key0 suffix +:+ " (not found)")])
    | None => None
    end.
Proof.
  intros He. run. unfold eligible_slug in He.
  destruct (find _ icons ≫= simpleIconsSlug) as [slug'|]; simpl in *; [|done].
  destruct (truthy slug' && negb (truthy suffix)); [|done].
  inversion He; subst. fold (fallback_url slug).
  destruct (download net fuel (fallback_url slug) w1) as [[[svg|e] w2]|];
    [|done|done].
  destruct (writable _ svg); [|done].
  unfold after; simpl. by rewrite <- app_assoc.
Qed.

(** The call on an absent file, by what the primary [try] block does. *)
Lemma downloadIcon_unfold fuel key0 suffix (w : World) :
  files w !! outputPath key0 suffix = None ->
  downloadIcon fuel icons key0 suffix w
  = match download net fuel (primary_url key0 suffix) w with
    | Some (Resolved svg, w1) =>
        if writable (outputPath key0 suffix) svg
        then Some (true,
                   after w1 (<[outputPath key0 suffix := svg]> (files w1))
                     [Write (outputPath key0 suffix) svg;
                      Log ("✓ " +:+ filename key0 suffix +:+ " (chanhdai)")])
        else recover fuel icons key0 suffix w1
    | Some (Rejected _, w1) => recover fuel icons key0 suffix w1
    | None => None
    end.
Proof.
  intros Hn. unfold downloadIcon, bind, ret, existsSync, writeFileSync,
    console_log, emit.
  absent Hn. fold (primary_url key0 suffix).
  destruct (download net fuel (primary_url key0 suffix) w) as [[[svg|e] w1]|];
    [|done|done].
  destruct (writable _ svg); [|done].
  unfold after; simpl. by rewrite <- app_assoc.
Qed.

Lemma downloadIcon_fails fuel key0 suffix (w w1 : World) :
  files w !! outputPath key0 suffix = None ->
  fails fuel (primary_url key0 suffix) (outputPath key0 suffix) w w1 ->
  downloadIcon fuel icons key0 suffix w = recover fuel icons key0 suffix w1.
Proof.
  intros Hn Hf. rewrite downloadIcon_unfold by done.
  destruct Hf as [[e ->] | (svg & -> & ->)]; done.
Qed.

Lemma recover_fails fuel key0 suffix slug (w1 w2 : World) :
  eligible_slug key0 suffix = Some slug ->
  fails fuel (fallback_url slug) (outputPath key0 suffix) w1 w2 ->
  recover fuel icons key0 suffix w1
  = Some (false, after w2 (files w2)
                   [Log ("✗ " +:+ filename key0 suffix +:+ " (not found)")]).
Proof.
  intros He Hf. rewrite (recover_unfold _ _ _ _ _ He).
  destruct Hf as [[e ->] | (svg & -> & ->)]; done.
Qed.

Lemma downloadIcon_exists fuel key0 suffix (w : World) :
  is_Some (files w !! outputPath key0 suffix) ->
  downloadIcon fuel icons key0 suffix w
  = Some (true, after w (files w)
                  [Log ("✓ " +:+ filename key0 suffix +:+ " (exists)")]).
Proof. intros H. run. by rewrite bool_decide_eq_true_2. Qed.

Lemma downloadIcon_primary fuel key0 suffix (w : World) svg w1 :
  files w !! outputPath key0 suffix = None ->
  download net fuel (primary_url key0 suffix) w = Some (Resolved svg, w1) ->
  writable (outputPath key0 suffix) svg = true ->
  downloadIcon fuel icons key0 suffix w
  = Some (true, after w1 (<[outputPath key0 suffix := svg]> (files w1))
                  [Write (outputPath key0 suffix) svg;
                   Log ("✓ " +:+ filename key0 suffix +:+ " (chanhdai)")]).
Proof. intros Hn Hd Hw. by rewrite downloadIcon_unfold, Hd, Hw. Qed.

Lemma downloadIcon_not_found fuel key0 suffix (w : World) e w1 :
  files w !! outputPath key0 suffix = None ->
  download net fuel (primary_url key0 suffix) w = Some (Rejected e, w1) ->
  eligible_slug key0 suffix = None ->
  downloadIcon fuel icons key0 suffix w
  = Some (false, after w1 (files w1)
                   [Log ("✗ " +:+ filename key0 suffix +:+ " (not found)")]).
Proof.
  intros Hn Hd He. rewrite downloadIcon_unfold, Hd by done.
  by apply recover_not_found.
Qed.

Lemma downloadIcon_fallback fuel key0 suffix (w : World) w1 slug svg w2 :
  files w !! outputPath key0 suffix = None ->
  fails fuel (primary_url key0 suffix) (outputPath key0 suffix) w w1 ->
  eligible_slug key0 suffix = Some slug ->
  download net fuel (fallback_url slug) w1 = Some (Resolved svg, w2) ->
  writable (outputPath key0 suffix) svg = true ->
  downloadIcon fuel icons key0 suffix w
  = Some (true, after w2 (<[outputPath key0 suffix := svg]> (files w2))
                  [Write (outputPath key0 suffix) svg;
                   Log ("✓ " +:+ filename key0 suffix +:+ " (simpleicons)")]).
Proof.
  intros Hn Hf He Hd2 Hw.
  by rewrite (downloadIcon_fails _ _ _ _ _ Hn Hf),
             (recover_unfold _ _ _ _ _ He), Hd2, Hw.
Qed.

Lemma downloadIcon_fallback_failed fuel key0 suffix (w : World) e w1 slug e2 w2 :
  files w !! outputPath key0 suffix = None ->
  download net fuel (primary_url key0 suffix) w = Some (Rejected e, w1) ->
  eligible_slug key0 suffix = Some slug ->
  download net fuel (fallback_url slug) w1 = Some (Rejected e2, w2) ->
  downloadIcon fuel icons key0 suffix w
  = Some (false, after w2 (files w2)
                   [Log ("✗ " +:+ filename key0 suffix +:+ " (not found)")]).
Proof.
  intros Hn Hd He Hd2. rewrite downloadIcon_unfold, Hd by done.
  by rewrite (recover_unfold _ _ _ _ _ He), Hd2.
Qed.

Lemma downloadIcon_resolution fuel key0 suffix (w : World) ok w' :
  downloadIcon fuel icons key0 suffix w = Some (ok, w') <->
  resolution fuel key0 suffix w ok w'.
Proof.
  split.
  - intros H.
    destruct (files w !! outputPath key0 suffix) as [c|] eqn:Hf.
    { rewrite downloadIcon_exists in H by eauto. inversion H; subst.
      constructor. eauto. }
    rewrite downloadIcon_unfold in H by done.
    destruct (download net fuel (primary_url key0 suffix) w)
      as [[s1 w1]|] eqn:Hd; [|done].
    assert ((exists svg, s1 = Resolved svg /\
                         writable (outputPath key0 suffix) svg = true /\
                         Some (ok, w')
                         = Some (true,
                             after w1 (<[outputPath key0 suffix := svg]> (files w1))
                               [Write (outputPath key0 suffix) svg;
                                Log ("✓ " +:+ filename key0 suffix +:+ " (chanhdai)")]))
            \/ (fails fuel (primary_url key0 suffix) (outputPath key0 suffix) w w1
                /\ recover fuel icons key0 suffix w1 = Some (ok, w')))
      as [(svg & -> & Hw & E) | [Hfail Hrec]].
    { destruct s1 as [svg|e].
      - destruct (writable (outputPath key0 suffix) svg) eqn:Hw.
        + left. exists svg. by rewrite H.
        + right. split; [right; by exists svg | done].
      - right. split; [left; by exists e | done]. }
    { inversion E; subst. by apply res_primary. }
    destruct (eligible_slug key0 suffix) as [slug|] eqn:He.
    + rewrite (recover_unfold _ _ _ _ _ He) in Hrec.
      destruct (download net fuel (fallback_url slug) w1)
        as [[[svg|e2] w2]|] eqn:Hd2; [| |done].
      * destruct (writable (outputPath key0 suffix) svg) eqn:Hw;
          inversion Hrec; subst.
        -- by eapply res_fallback.
        -- eapply res_fallback_failed; [done|done|done|].
           right. by exists svg.
      * inversion Hrec; subst.
        eapply res_fallback_failed; [done|done|done|]. left. by exists e2.
    + rewrite recover_not_found in Hrec by done. inversion Hrec; subst.
      by eapply res_not_found.
  - intros H. destruct H as [Hex | svg w1 Hn Hd Hw | w1 slug svg w2 Hn Hf He Hd2 Hw
                            | w1 slug w2 Hn Hf He Hf2 | w1 Hn Hf He].
    + by apply downloadIcon_exists.
    + by apply downloadIcon_primary.
    + by eapply downloadIcon_fallback.
    + rewrite (downloadIcon_fails _ _ _ _ _ Hn Hf). by eapply recover_fails.
    + rewrite (downloadIcon_fails _ _ _ _ _ Hn Hf). by apply recover_not_found.
Qed.

(** What a failed [try] block leaves behind. *)
Lemma fails_world fuel url path (w w1 : World) :
  fails fuel url path w w1 ->
  exists urls, w1 = after w (files w) (map Get (url :: urls)).
Proof. intros [[e H] | (svg & H & _)]; by eapply download_world. Qed.

Lemma fails_mono fuel url path (w w1 : World) (k : nat) :
  fails fuel url path w w1 -> fails (fuel + k) url path w w1.
Proof.
  intros [[e H] | (svg & H & Hw)].
  - left. exists e. by apply download_mono.
  - right. exists svg. split; [by apply download_mono | done].
Qed.

End DownloadIcon.

(** Turn what is known of the fetches of a resolution into the worlds
    they lead to. *)
Ltac worlds :=
  repeat match goal with
  | H : download _ _ _ _ = Some (_, ?w1) |- _ =>
      is_var w1; apply download_world in H as [? ->]
  | H : fails _ _ _ _ _ _ ?w1 |- _ =>
      is_var w1; apply fails_world in H as [? ->]
  end.

(** ** What one resolution does to the world *)

Section Resolution.

Variable OUTPUT_DIR : string.
Variable path_join : string -> string -> string.
Variable net : Network.
Variable writable : string -> string -> bool.
Variable icons : list Icon.

Abbreviation outputPath' := (outputPath OUTPUT_DIR path_join).
Abbreviation resolution' := (resolution OUTPUT_DIR path_join net writable icons).

Lemma download_files fuel url (w : World) s w' :
  download net fuel url w = Some (s, w') -> files w' = files w.
Proof. intros H. by apply download_world in H as [urls ->]. Qed.

(** Files are only ever added. *)
Lemma resolution_subseteq fuel key0 suffix (w : World) ok w' :
  resolution' fuel key0 suffix w ok w' -> files w ⊆ files w'.
Proof.
  destruct 1; worlds; simpl; try done; by apply insert_subseteq.
Qed.

(** A successful resolution leaves the target on disk. *)
Lemma resolution_true fuel key0 suffix (w : World) w' :
  resolution' fuel key0 suffix w true w' ->
  is_Some (files w' !! outputPath' key0 suffix).
Proof.
  inversion 1; subst; simpl; try done;
    rewrite lookup_insert_eq; eauto.
Qed.

(** A failed one found no file and leaves the disk as it was. *)
Lemma resolution_false fuel key0 suffix (w : World) w' :
  resolution' fuel key0 suffix w false w' ->
  files w !! outputPath' key0 suffix = None /\ files w' = files w.
Proof. inversion 1; subst; worlds; by simpl. Qed.

(** The events of a resolution form one block, and its writes are fresh. *)
Lemma all_gets_quiet path (urls : list string) :
  Forall (quiet_on path) (map Get urls).
Proof. induction urls; simpl; by constructor. Qed.

Lemma fetch_block key0 suffix (urls more : list string) tail line :
  Forall (quiet_on (outputPath' key0 suffix)) tail ->
  progress_line (filename key0 suffix) line ->
  attempt_block OUTPUT_DIR path_join key0 suffix
    (map Get (primary_url key0 suffix :: urls) ++
     map Get more ++ tail ++ [Log line]).
Proof.
  intros Ht Hl. simpl. rewrite !app_assoc. apply block_fetch; [|done].
  repeat (apply Forall_app; split); auto using all_gets_quiet.
Qed.

Lemma resolution_block fuel key0 suffix (w : World) ok w' :
  resolution' fuel key0 suffix w ok w' ->
  exists b, extends w w' b /\
            attempt_block OUTPUT_DIR path_join key0 suffix b.
Proof.
  destruct 1; worlds.
  - eexists. split; [apply extends_log | constructor].
  - eexists. split.
    + eapply extends_app; [apply extends_gets | by apply extends_write].
    + apply (fetch_block _ _ _ [] [Write _ _]); by repeat constructor.
  - eexists. split.
    + eapply extends_app; [apply extends_gets|].
      eapply extends_app; [apply extends_gets | by apply extends_write].
    + apply (fetch_block _ _ _ (_ :: _) [Write _ _]); by repeat constructor.
  - eexists. split.
    + eapply extends_app; [apply extends_gets|].
      eapply extends_app; [apply extends_gets | apply extends_log].
    + apply (fetch_block _ _ _ (_ :: _) []); by repeat constructor.
  - eexists. split.
    + eapply extends_app; [apply extends_gets | apply extends_log].
    + apply (fetch_block _ _ _ [] []); by repeat constructor.
Qed.

End Resolution.

(** A block prints exactly one line, the progress line of its file. *)
Lemma quiet_no_logs path (evs : list Event) :
  Forall (quiet_on path) evs -> logs evs = [].
Proof.
  induction 1 as [|[u|p d|l] evs Hq _ IH]; simpl; try done.
Qed.

Lemma attempt_block_line OUTPUT_DIR path_join key0 suffix (b : list Event) :
  attempt_block OUTPUT_DIR path_join key0 suffix b ->
  exists line, logs b = [line] /\ progress_line (filename key0 suffix) line.
Proof.
  destruct 1 as [|evs line Hq Hp].
  - eexists. split; [done | constructor].
  - exists line. split; [|done]. simpl.
    by rewrite logs_app, (quiet_no_logs _ _ Hq).
Qed.

(** ** The driver *)

Section Main.

Variable OUTPUT_DIR : string.
Variable path_join : string -> string -> string.
Variable net : Network.
Variable writable : string -> string -> bool.
Variable icons : list Icon.

Abbreviation path_of := (fun t : string * string =>
  outputPath OUTPUT_DIR path_join t.1 t.2).
Abbreviation resolves := (resolution OUTPUT_DIR path_join net writable icons).
Abbreviation body := (main_body OUTPUT_DIR path_join net writable).
Abbreviation loop := (main_loop OUTPUT_DIR path_join net writable).
Abbreviation block_of := (fun (t : string * string) (b : list Event) =>
  attempt_block OUTPUT_DIR path_join t.1 t.2 b).

Lemma main_body_themed fuel i c (w : World) c' w' :
  hasTheme i = true ->
  body fuel icons i c w = Some (c', w') <->
  exists lightOk darkOk w1,
    resolves fuel (key i) "-light" w lightOk w1 /\
    resolves fuel (key i) "-dark" w1 darkOk w' /\
    c' = count (lightOk && darkOk) c.
Proof.
  intros Ht. unfold main_body, bind, ret. rewrite Ht. split.
  - destruct (downloadIcon _ _ _ _ fuel icons (key i) "-light" w)
      as [[l w1]|] eqn:Hl; [|done].
    destruct (downloadIcon _ _ _ _ fuel icons (key i) "-dark" w1)
      as [[d w2]|] eqn:Hd; [|done].
    intros [= <- <-]. exists l, d, w1.
    by rewrite <- !downloadIcon_resolution.
  - intros (l & d & w1 & Hl & Hd & ->).
    apply downloadIcon_resolution in Hl, Hd. by rewrite Hl, Hd.
Qed.

Lemma main_body_plain fuel i c (w : World) c' w' :
  hasTheme i = false ->
  body fuel icons i c w = Some (c', w') <->
  exists ok, resolves fuel (key i) "" w ok w' /\ c' = count ok c.
Proof.
  intros Ht. unfold main_body, bind, ret. rewrite Ht. split.
  - destruct (downloadIcon _ _ _ _ fuel icons (key i) "" w)
      as [[ok w1]|] eqn:Hd; [|done].
    intros [= <- <-]. exists ok. by rewrite <- downloadIcon_resolution.
  - intros (ok & Hd & ->).
    apply downloadIcon_resolution in Hd. by rewrite Hd.
Qed.

(** One iteration: the disk only grows, one counter moves by one, a
    counted success means that every target of the entry is on disk, and
    the events are the blocks of the entry's targets, in order. *)
Lemma main_body_summary fuel i c (w : World) c' w' :
  body fuel icons i c w = Some (c', w') ->
  files w ⊆ files w' /\
  (exists ok, c' = count ok c /\
     (ok = true -> forall t, t ∈ targets_of i -> is_Some (files w' !! path_of t))) /\
  (exists blocks, extends w w' (concat blocks) /\
     Forall2 block_of (targets_of i) blocks).
Proof.
  intros H. unfold targets_of. destruct (hasTheme i) eqn:Ht.
  - apply main_body_themed in H as (l & d & w1 & Hl & Hd & ->); [|done].
    pose proof (resolution_subseteq _ _ _ _ _ _ _ _ _ _ _ Hl) as Sl.
    pose proof (resolution_subseteq _ _ _ _ _ _ _ _ _ _ _ Hd) as Sd.
    split; [by etrans|]. split.
    + exists (l && d). split; [done|].
      intros [-> ->]%andb_true_iff t Hin.
      apply resolution_true in Hl, Hd.
      apply elem_of_cons in Hin as [->|Hin]; simpl.
      { destruct Hl as [x Hx]. exists x. by eapply lookup_weaken. }
      apply list_elem_of_singleton in Hin as ->. done.
    + apply resolution_block in Hl as (bl & El & Bl).
      apply resolution_block in Hd as (bd & Ed & Bd).
      exists [bl; bd]. split.
      * simpl. rewrite app_nil_r. by eapply extends_app.
      * by repeat constructor.
  - apply main_body_plain in H as (ok & Hd & ->); [|done].
    split; [by eapply resolution_subseteq|]. split.
    + exists ok. split; [done|]. intros -> t ->%list_elem_of_singleton.
      by eapply resolution_true.
    + apply resolution_block in Hd as (b & E & B).
      exists [b]. split; [by simpl; rewrite app_nil_r|].
      by repeat constructor.
Qed.

Lemma count_sum ok c :
  (success (count ok c) + failed (count ok c) = S (success c + failed c))%nat.
Proof. destruct ok; simpl; lia. Qed.

Lemma count_failed ok c : (failed c <= failed (count ok c))%nat.
Proof. destruct ok; simpl; lia. Qed.

Lemma count_failed_same ok c : failed (count ok c) = failed c -> ok = true.
Proof. destruct ok; simpl; [done | lia]. Qed.

(** The whole loop. *)
Lemma main_loop_summary fuel rest : forall c (w : World) c' w',
  loop fuel icons rest c w = Some (c', w') ->
  files w ⊆ files w' /\
  (success c' + failed c' = success c + failed c + length rest)%nat /\
  (failed c <= failed c')%nat /\
  (failed c' = failed c ->
     forall t, t ∈ targets rest -> is_Some (files w' !! path_of t)) /\
  (exists blocks, extends w w' (concat blocks) /\
     Forall2 block_of (targets rest) blocks).
Proof.
  induction rest as [|i rest IH]; intros c w c' w' H; simpl in H.
  - inversion H; subst. split; [done|]. split; [simpl; lia|]. split; [done|].
    split; [intros _ t Hin; by apply elem_of_nil in Hin|].
    exists []. split; [apply extends_nil | constructor].
  - unfold bind in H.
    destruct (body fuel icons i c w) as [[c1 w1]|] eqn:Hb; [|done].
    apply main_body_summary in Hb as (S1 & (ok & -> & Hok) & (b1 & E1 & B1)).
    apply IH in H as (S2 & Hsum & Hle & Hall & (b2 & E2 & B2)).
    pose proof (count_sum ok c). pose proof (count_failed ok c).
    split; [by etrans|]. split; [simpl; lia|]. split; [lia|]. split.
    + intros Hf t Hin.
      assert (failed (count ok c) = failed c) as Hc by lia.
      apply count_failed_same in Hc.
      unfold targets in Hin; simpl in Hin.
      apply elem_of_app in Hin as [Hin|Hin].
      * destruct (Hok Hc t Hin) as [x Hx]. exists x. by eapply lookup_weaken.
      * apply Hall; [lia | done].
    + exists (b1 ++ b2). split.
      * rewrite concat_app. by eapply extends_app.
      * unfold targets; simpl. by apply Forall2_app.
Qed.

(** When every target is on disk the loop only prints: it counts every
    entry as a success, requests nothing and writes nothing, for any fuel. *)
Lemma main_loop_all_exist fuel rest : forall c (w : World),
  (forall t, t ∈ targets rest -> is_Some (files w !! path_of t)) ->
  exists w',
    loop fuel icons rest c w
    = Some (mkCounters (success c + length rest) (failed c), w') /\
    files w' = files w /\
    requests (trace w') = requests (trace w) /\
    writes (trace w') = writes (trace w).
Proof.
  induction rest as [|i rest IH]; intros c w Hall; simpl.
  - exists w. destruct c as [s f]; simpl. by rewrite Nat.add_0_r.
  - unfold targets in Hall; simpl in Hall.
    assert (forall t, t ∈ targets_of i -> is_Some (files w !! path_of t)) as Hi
      by (intros t Ht; apply Hall, elem_of_app; by left).
    assert (exists w1, body fuel icons i c w = Some (count true c, w1) /\
              files w1 = files w /\
              requests (trace w1) = requests (trace w) /\
              writes (trace w1) = writes (trace w)) as (w1 & Hb & F1 & R1 & W1).
    { unfold targets_of in Hi. destruct (hasTheme i) eqn:Ht.
      - eexists. split.
        + apply main_body_themed; [done|]. exists true, true. eexists.
          split; [apply res_exists, (Hi (key i, "-light")); set_solver|].
          split; [apply res_exists; simpl;
                  apply (Hi (key i, "-dark")); set_solver|done].
        + simpl. by rewrite <- !app_assoc, requests_app, writes_app, !app_nil_r.
      - eexists. split.
        + apply main_body_plain; [done|]. exists true.
          split; [apply res_exists, (Hi (key i, "")); set_solver|done].
        + simpl. by rewrite requests_app, writes_app, !app_nil_r. }
    destruct (IH (count true c) w1) as (w' & Hl & F & R & W).
    { intros t Ht. rewrite F1. apply Hall, elem_of_app. by right. }
    exists w'. unfold bind. rewrite Hb, Hl. simpl.
    split; [do 3 f_equal; lia|]. split; [congruence|]. split; congruence.
Qed.

(** Requests are only added; a target that is not on disk costs at least
    one; and a resolution without any request leaves the disk alone. *)
Lemma resolution_requests fuel key0 suffix (w : World) ok w' :
  resolves fuel key0 suffix w ok w' ->
  (length (requests (trace w)) <= length (requests (trace w')))%nat /\
  (files w !! path_of (key0, suffix) = None ->
     (length (requests (trace w)) < length (requests (trace w')))%nat) /\
  (length (requests (trace w)) = length (requests (trace w')) ->
     files w' = files w).
Proof.
  destruct 1;
    worlds; simpl in *;
    rewrite ?requests_app, ?length_app; simpl;
    rewrite ?requests_app, ?length_app; simpl;
    rewrite ?requests_gets, ?length_app; simpl;
    (split; [lia|]); (split; [intros Hn; try lia | intros; try lia]).
  - destruct H as [x Hx]. simpl in Hn. congruence.
  - done.
Qed.

Lemma main_body_requests fuel i c (w : World) c' w' :
  body fuel icons i c w = Some (c', w') ->
  (length (requests (trace w)) <= length (requests (trace w')))%nat /\
  (forall t, t ∈ targets_of i -> files w !! path_of t = None ->
     (length (requests (trace w)) < length (requests (trace w')))%nat) /\
  (length (requests (trace w)) = length (requests (trace w')) ->
     files w' = files w).
Proof.
  intros H. unfold targets_of. destruct (hasTheme i) eqn:Ht.
  - apply main_body_themed in H as (l & d & w1 & Hl & Hd & _); [|done].
    apply resolution_requests in Hl as (L1 & L2 & L3).
    apply resolution_requests in Hd as (D1 & D2 & D3).
    split; [lia|]. split.
    + intros t Hin Hn. apply elem_of_cons in Hin as [->|Hin].
      { specialize (L2 Hn). lia. }
      apply list_elem_of_singleton in Hin as ->.
      destruct (decide (length (requests (trace w))
                        = length (requests (trace w1)))) as [E|E]; [|lia].
      apply L3 in E. simpl in *. rewrite <- E in Hn. specialize (D2 Hn). lia.
    + intros E. rewrite D3, L3 by lia. done.
  - apply main_body_plain in H as (ok & Hd & _); [|done].
    apply resolution_requests in Hd as (D1 & D2 & D3).
    split; [done|]. split; [|done].
    intros t ->%list_elem_of_singleton Hn. by apply D2.
Qed.

Lemma main_loop_requests fuel rest : forall c (w : World) c' w',
  loop fuel icons rest c w = Some (c', w') ->
  (length (requests (trace w)) <= length (requests (trace w')))%nat /\
  (forall t, t ∈ targets rest -> files w !! path_of t = None ->
     (length (requests (trace w)) < length (requests (trace w')))%nat).
Proof.
  induction rest as [|i rest IH]; intros c w c' w' H; simpl in H.
  - inversion H; subst. split; [done|]. intros t Hin. by apply elem_of_nil in Hin.
  - unfold bind in H.
    destruct (body fuel icons i c w) as [[c1 w1]|] eqn:Hb; [|done].
    apply main_body_requests in Hb as (B1 & B2 & B3).
    apply IH in H as (L1 & L2).
    split; [lia|]. intros t Hin Hn.
    unfold targets in Hin; simpl in Hin.
    apply elem_of_app in Hin as [Hin|Hin].
    + specialize (B2 t Hin Hn). lia.
    + destruct (decide (length (requests (trace w))
                        = length (requests (trace w1)))) as [E|E]; [|lia].
      rewrite <- (B3 E) in Hn. specialize (L2 t Hin Hn). lia.
Qed.

Lemma main_unfold fuel (w : World) c w' :
  main OUTPUT_DIR path_join net writable fuel icons w = Some (c, w') <->
  exists w1,
    loop fuel icons icons (mkCounters 0 0)
      (after w (files w) (banner OUTPUT_DIR)) = Some (c, w1) /\
    w' = after w1 (files w1) (summary c).
Proof.
  unfold main, bind, ret, console_log, emit, after, banner, summary; simpl.
  rewrite <- !app_assoc; simpl. split.
  - destruct (loop _ _ _ _ _) as [[c1 w1]|]; [|done].
    simpl. rewrite <- !app_assoc; simpl. intros [= <- <-]. by exists w1.
  - intros (w1 & -> & ->). simpl. by rewrite <- !app_assoc.
Qed.

End Main.

(** ** Networks whose redirect chains end *)

Section Termination.

Variable OUTPUT_DIR : string.
Variable path_join : string -> string -> string.
Variable net : Network.
Variable writable : string -> string -> bool.
Variable icons : list Icon.
Variable d : nat.
Hypothesis chains_end : bounded net d.

Lemma download_settles url (w : World) :
  exists s w', download net d url w = Some (s, w') /\ files w' = files w.
Proof.
  destruct (chains_end (requests (trace w)) url) as (urls & final & Hf & Hl).
  exists (settle final), (after w (files w) (map Get urls)). split; [|done].
  replace d with (length urls + (d - length urls))%nat by lia.
  by eapply download_follows.
Qed.

Lemma recover_returns key0 suffix (w1 : World) :
  exists ok w',
    recover OUTPUT_DIR path_join net writable d icons key0 suffix w1
    = Some (ok, w').
Proof.
  destruct (eligible_slug icons key0 suffix) as [slug|] eqn:He.
  - rewrite (recover_unfold _ _ _ _ _ _ _ _ _ _ He).
    destruct (download_settles (fallback_url slug) w1)
      as ([svg|e2] & w2 & -> & _); [|eauto].
    destruct (writable _ svg); eauto.
  - rewrite recover_not_found by done. eauto.
Qed.

Lemma downloadIcon_returns key0 suffix (w : World) :
  exists ok w',
    downloadIcon OUTPUT_DIR path_join net writable d icons key0 suffix w
    = Some (ok, w').
Proof.
  destruct (files w !! outputPath OUTPUT_DIR path_join key0 suffix) as [x|] eqn:Hf.
  { do 2 eexists. apply downloadIcon_exists. eauto. }
  rewrite downloadIcon_unfold by done.
  destruct (download_settles (primary_url key0 suffix) w)
    as ([svg|e] & w1 & -> & _); [|apply recover_returns].
  destruct (writable _ svg); [eauto | apply recover_returns].
Qed.

Lemma main_body_returns i c (w : World) :
  exists c' w', main_body OUTPUT_DIR path_join net writable d icons i c w =
      Some (c', w').
Proof.
  unfold main_body, bind, ret. destruct (hasTheme i).
  - destruct (downloadIcon_returns (key i) "-light" w) as (l & w1 & ->).
    destruct (downloadIcon_returns (key i) "-dark" w1) as (dk & w2 & ->).
    eauto.
  - destruct (downloadIcon_returns (key i) "" w) as (ok & w1 & ->). eauto.
Qed.

Lemma main_loop_returns rest : forall c (w : World),
  exists c' w', main_loop OUTPUT_DIR path_join net writable d icons rest c w =
      Some (c', w').
Proof.
  induction rest as [|i rest IH]; intros c w; simpl.
  - unfold ret. eauto.
  - unfold bind. destruct (main_body_returns i c w) as (c1 & w1 & ->).
    apply IH.
Qed.

(** With enough fuel for the longest chain, the script runs to its end. *)
Lemma main_returns (w : World) :
  exists c w', main OUTPUT_DIR path_join net writable d icons w = Some (c, w').
Proof.
  destruct (main_loop_returns icons (mkCounters 0 0)
              (after w (files w) (banner OUTPUT_DIR))) as (c & w1 & H).
  exists c. eexists. apply main_unfold. eauto.
Qed.

End Termination.

(** ** Networks whose answers do not change *)

Section Stable.

Variable OUTPUT_DIR : string.
Variable path_join : string -> string -> string.
Variable net : Network.
Variable writable : string -> string -> bool.
Variable icons : list Icon.
Hypothesis net_stable : stable net.

Lemma download_stable fuel : forall url (w : World) s w1,
  download net fuel url w = Some (s, w1) ->
  forall v : World, exists v1,
    download net fuel url v = Some (s, v1) /\ files v1 = files v.
Proof.
  induction fuel as [|fuel IH]; intros url w s w1 H v; simpl in *; [done|].
  unfold bind, https_get, ret in *.
  rewrite (net_stable (requests (trace v)) (requests (trace w))).
  destruct (net (requests (trace w)) url) as [|r].
  - inversion H; subst. eauto.
  - destruct (redirect r) as [next|].
    + destruct (IH _ _ _ _ H (mkWorld (files v) (trace v ++ [Get url])))
        as (v1 & Hv & Fv).
      eauto.
    + destruct (statusCode r =? 200), (ended r); inversion H; subst; eauto.
Qed.

Lemma fails_stable fuel url path (w w1 : World) :
  fails net writable fuel url path w w1 ->
  forall v : World, exists v1,
    fails net writable fuel url path v v1 /\ files v1 = files v.
Proof.
  intros [[e H] | (svg & H & Hw)] v;
    destruct (download_stable _ _ _ _ _ H v) as (v1 & D & F);
    exists v1; (split; [|done]).
  - left. by exists e.
  - right. by exists svg.
Qed.

(** A resolution replayed on a disk that already holds its result
    changes nothing on that disk. *)
Lemma resolution_replay fuel key0 suffix (w : World) ok w' :
  resolution OUTPUT_DIR path_join net writable icons fuel key0 suffix w ok w' ->
  forall v : World, files w' ⊆ files v ->
  exists ok' v',
    resolution OUTPUT_DIR path_join net writable icons fuel key0 suffix v ok' v' /\
    files v' = files v.
Proof.
  intros H v Hsub.
  destruct (files v !! outputPath OUTPUT_DIR path_join key0 suffix) as [x|] eqn:Hv.
  { do 2 eexists. split; [apply res_exists; eauto | done]. }
  destruct ok.
  { apply resolution_true in H as [x Hx].
    eapply lookup_weaken in Hx; [|done]. congruence. }
  inversion H as [ | | | w1 slug w2 Hn Hf He Hf2 | w1 Hn Hf He]; subst.
  - destruct (fails_stable _ _ _ _ _ Hf v) as (v1 & D1 & F1).
    destruct (fails_stable _ _ _ _ _ Hf2 v1) as (v2 & D2 & F2).
    do 2 eexists. split; [by eapply res_fallback_failed|].
    simpl. congruence.
  - destruct (fails_stable _ _ _ _ _ Hf v) as (v1 & D1 & F1).
    do 2 eexists. split; [by eapply res_not_found|]. done.
Qed.

Lemma main_body_replay fuel i c (w : World) c' w' :
  main_body OUTPUT_DIR path_join net writable fuel icons i c w = Some (c', w') ->
  forall c2 (v : World), files w' ⊆ files v ->
  exists c2' v',
    main_body OUTPUT_DIR path_join net writable fuel icons i c2 v = Some (c2', v') /\
    files v' = files v.
Proof.
  intros H c2 v Hsub. destruct (hasTheme i) eqn:Ht.
  - apply main_body_themed in H as (l & dk & w1 & Hl & Hd & _); [|done].
    pose proof (resolution_subseteq _ _ _ _ _ _ _ _ _ _ _ Hd) as Sd.
    destruct (resolution_replay _ _ _ _ _ _ Hl v) as (l' & v1 & Hl' & F1);
      [by etrans|].
    destruct (resolution_replay _ _ _ _ _ _ Hd v1) as (d' & v2 & Hd' & F2);
      [by rewrite F1|].
    exists (count (l' && d') c2), v2. split; [|congruence].
    apply main_body_themed; [done|]. by exists l', d', v1.
  - apply main_body_plain in H as (ok & Hd & _); [|done].
    destruct (resolution_replay _ _ _ _ _ _ Hd v) as (ok' & v1 & Hd' & F1);
      [done|].
    exists (count ok' c2), v1. split; [|done].
    apply main_body_plain; [done|]. by exists ok'.
Qed.

Lemma main_loop_replay fuel rest : forall c (w : World) c' w',
  main_loop OUTPUT_DIR path_join net writable fuel icons rest c w = Some (c', w') ->
  forall c2 (v : World), files w' ⊆ files v ->
  exists c2' v',
    main_loop OUTPUT_DIR path_join net writable fuel icons rest c2 v = Some (c2', v') /\
    files v' = files v.
Proof.
  induction rest as [|i rest IH]; intros c w c' w' H c2 v Hsub; simpl in *.
  - unfold ret. eauto.
  - unfold bind in *.
    destruct (main_body _ _ _ _ fuel icons i c w) as [[c1 w1]|] eqn:Hb; [|done].
    pose proof (main_loop_summary _ _ _ _ _ _ _ _ _ _ _ H) as (S2 & _).
    destruct (main_body_replay _ _ _ _ _ _ Hb c2 v) as (c3 & v1 & -> & F1);
      [by etrans|].
    destruct (IH _ _ _ _ H c3 v1) as (c4 & v2 & Hl & F2); [by rewrite F1|].
    exists c4, v2. split; [done | congruence].
Qed.

End Stable.

(** ** The catalog *)

Lemma find_by_key (icons : list Icon) (i : Icon) :
  NoDup (key <$> icons) ->
  i ∈ icons ->
  find (fun j => String.eqb (key j) (key i)) icons = Some i.
Proof.
  induction icons as [|j icons IH]; intros Hnd Hin; [by apply elem_of_nil in Hin|].
  simpl in *. apply NoDup_cons in Hnd as [Hj Hnd].
  destruct (String.eqb (key j) (key i)) eqn:E.
  - apply String.eqb_eq in E.
    apply elem_of_cons in Hin as [->|Hin]; [done|].
    exfalso. apply Hj. rewrite E. by apply list_elem_of_fmap_2.
  - apply elem_of_cons in Hin as [->|Hin]; [by rewrite String.eqb_refl in E|].
    by apply IH.
Qed.

(** The keys of [ICONS] are pairwise distinct. *)
Lemma ICONS_keys_distinct : NoDup (key <$> ICONS).
Proof. apply (bool_decide_unpack _). by vm_compute. Qed.

(** No slug of [ICONS] is the empty string. *)
Lemma ICONS_slugs_truthy (i : Icon) slug :
  i ∈ ICONS -> simpleIconsSlug i = Some slug -> truthy slug = true.
Proof.
  assert (Forall (fun j => from_option truthy true (simpleIconsSlug j) = true)
            ICONS) as H
    by (apply (bool_decide_unpack _); by vm_compute).
  intros Hin Hs. rewrite Forall_forall in H. specialize (H i Hin).
  by rewrite Hs in H.
Qed.

(** For a plain request the fallback of an entry of [ICONS] is its slug. *)
Lemma ICONS_eligible_slug (i : Icon) :
  i ∈ ICONS -> eligible_slug ICONS (key i) "" = simpleIconsSlug i.
Proof.
  intros Hin. unfold eligible_slug.
  rewrite (find_by_key _ _ ICONS_keys_distinct Hin). simpl.
  destruct (simpleIconsSlug i) as [slug|] eqn:Hs; [|done]. simpl.
  by rewrite (ICONS_slugs_truthy i slug Hin Hs).
Qed.

(** * The claims *)

Section Claims.

Variable OUTPUT_DIR : string.
Variable path_join : string -> string -> string.
Variable net : Network.
Variable writable : string -> string -> bool.

Abbreviation target_path := (outputPath OUTPUT_DIR path_join).
Abbreviation resolve := (downloadIcon OUTPUT_DIR path_join net writable).

(** C1.  Fallback gating.  Take an entry with [hasTheme] true and the
    suffix "-light" or "-dark".  When the file is absent and the fetch from
    the primary host is rejected, [downloadIcon] returns [false], prints
    the "not found" line and issues no request after those of the primary
    fetch, whatever the entry's [simpleIconsSlug]; the disk is as before. *)
Theorem C1_themed_variants_never_fall_back
    fuel icons (i : Icon) suffix (w : World) e w1 :
  hasTheme i = true ->
  suffix = "-light" \/ suffix = "-dark" ->
  files w !! target_path (key i) suffix = None ->
  download net fuel (primary_url (key i) suffix) w = Some (Rejected e, w1) ->
  exists w',
    resolve fuel icons (key i) suffix w = Some (false, w') /\
    trace w' = trace w1 ++
      [Log ("✗ " +:+ filename (key i) suffix +:+ " (not found)")] /\
    requests (trace w') = requests (trace w1) /\
    files w' = files w.
Proof.
  intros _ Hs Hf Hd.
  assert (eligible_slug icons (key i) suffix = None) as He.
  { unfold eligible_slug. destruct Hs as [-> | ->]; simpl;
      by rewrite andb_false_r. }
  eexists. split; [by eapply downloadIcon_not_found|].
  simpl. split; [done|]. split.
  - by rewrite requests_app, app_nil_r.
  - by eapply download_files.
Qed.

(** C2.  Existence short-circuit.  If a file is at the output path before
    the call, [downloadIcon] returns [true] with any fuel, its only event
    is the "exists" line (so no request and no write), and the disk, the
    content of that file included, is unchanged. *)
Theorem C2_existing_file_short_circuit
    fuel icons key0 suffix (w : World) content :
  files w !! target_path key0 suffix = Some content ->
  exists w',
    resolve fuel icons key0 suffix w = Some (true, w') /\
    trace w' = trace w ++
      [Log ("✓ " +:+ filename key0 suffix +:+ " (exists)")] /\
    requests (trace w') = requests (trace w) /\
    writes (trace w') = writes (trace w) /\
    files w' = files w /\
    files w' !! target_path key0 suffix = Some content.
Proof.
  intros Hf. eexists. split; [apply downloadIcon_exists; eauto|].
  simpl. by rewrite requests_app, writes_app, !app_nil_r.
Qed.


(** C3.  Themed all-or-nothing counting.  For an entry with [hasTheme]
    true the driver resolves "-light" and then, in the world this leaves,
    "-dark".  Once both calls have returned, the iteration returns and moves
    exactly one counter by one: [success] if and only if both returned
    [true], [failed] if and only if one of them returned [false].  When only
    one of the two succeeded its file is on disk after the iteration all
    the same. *)
Theorem C3_themed_entry_counts_once
    fuel icons (i : Icon) c (w : World) lightOk w1 darkOk w2 :
  hasTheme i = true ->
  resolve fuel icons (key i) "-light" w = Some (lightOk, w1) ->
  resolve fuel icons (key i) "-dark" w1 = Some (darkOk, w2) ->
  exists c',
    main_body OUTPUT_DIR path_join net writable fuel icons i c w = Some (c', w2) /\
    (lightOk = true /\ darkOk = true <->
       success c' = S (success c) /\ failed c' = failed c) /\
    (lightOk = false \/ darkOk = false <->
       success c' = success c /\ failed c' = S (failed c)) /\
    (lightOk = true -> darkOk = false ->
       is_Some (files w2 !! target_path (key i) "-light") /\
       files w2 = files w1) /\
    (lightOk = false -> darkOk = true ->
       is_Some (files w2 !! target_path (key i) "-dark")).
Proof.
  intros Ht Hl Hd. exists (count (lightOk && darkOk) c). split.
  { unfold main_body, bind, ret. by rewrite Ht, Hl, Hd. }
  apply downloadIcon_resolution in Hl, Hd.
  split; [|split; [|split]].
  - destruct lightOk, darkOk; simpl; split; intros [? ?];
      (done || lia || (split; (done || lia))).
  - destruct lightOk, darkOk; simpl; split;
      try (intros [? | ?]; (done || (split; (done || lia))));
      try (intros [? ?]; (lia || auto)).
  - intros -> ->. apply resolution_true in Hl. apply resolution_false in Hd.
    destruct Hd as [_ ->]. done.
  - intros _ ->. by eapply resolution_true.
Qed.

(** C10.  Every iteration of the loop moves exactly one of the two
    counters, by one; hence when [main] returns, the two counts add up to
    the number of catalog entries. *)
Theorem C10_counts_add_up_to_catalog fuel icons :
  (forall i c (w : World) c' w',
     main_body OUTPUT_DIR path_join net writable fuel icons i c w = Some (c', w') ->
     (success c' = S (success c) /\ failed c' = failed c) \/
     (success c' = success c /\ failed c' = S (failed c))) /\
  (forall (w : World) c w',
     main OUTPUT_DIR path_join net writable fuel icons w = Some (c, w') ->
     (success c + failed c = length icons)%nat).
Proof.
  split.
  - intros i c w c' w' H.
    apply main_body_summary in H as (_ & (ok & -> & _) & _).
    destruct ok; simpl; auto.
  - intros w c w' H. apply main_unfold in H as (w1 & H & _).
    apply main_loop_summary in H as (_ & Hsum & _). simpl in Hsum. lia.
Qed.


(** C8.  Order.  When [main] returns, its events are the banner, then one
    block of events per target file, then the summary; the blocks come in
    the order of the catalog, the block of "-light" before the block of
    "-dark" for a themed entry; each block holds only requests and writes
    for its own file and ends with the progress line of that file.  The
    printed lines are therefore the banner, one progress line per target
    in that same order, and the summary. *)
Theorem C8_files_in_catalog_order fuel icons (w : World) c w' :
  main OUTPUT_DIR path_join net writable fuel icons w = Some (c, w') ->
  exists blocks lines,
    trace w' = trace w ++ banner OUTPUT_DIR ++ concat blocks ++ summary c /\
    Forall2 (fun t b => attempt_block OUTPUT_DIR path_join t.1 t.2 b)
      (targets icons) blocks /\
    logs (trace w') = logs (trace w) ++ logs (banner OUTPUT_DIR) ++ lines
                      ++ logs (summary c) /\
    Forall2 (fun t line => progress_line (filename t.1 t.2) line)
      (targets icons) lines.
Proof.
  intros H. apply main_unfold in H as (w1 & H & ->).
  apply main_loop_summary in H as (_ & _ & _ & _ & (blocks & (T & _) & B)).
  assert (exists lines, logs (concat blocks) = lines /\
            Forall2 (fun t line => progress_line (filename t.1 t.2) line)
              (targets icons) lines) as (lines & L & PL).
  { clear T. induction B as [|t b ts bs Hb _ (lines & L & PL)].
    - exists []. by split; [|constructor].
    - apply attempt_block_line in Hb as (line & Hl & Hp).
      exists (line :: lines). split; [|by constructor].
      simpl. by rewrite logs_app, Hl, L. }
  exists blocks, lines. simpl in T.
  split; [|split; [done|split; [|done]]].
  - unfold after; simpl. rewrite T. by rewrite <- !app_assoc.
  - unfold after; simpl. rewrite T, !logs_app, L. by rewrite <- !app_assoc.
Qed.


End Claims.

Lemma C1_witness :
  let i := icon_slug "expressjs" true "express" in
  i ∈ ICONS /\
  exists w',
    downloadIcon Sample.dir Sample.join Sample.net_404 Sample.sound 1 ICONS
      (key i) "-dark" Sample.empty_disk = Some (false, w') /\
    trace w' = [Get (primary_url "expressjs" "-dark");
                Log "✗ expressjs-dark.svg (not found)"] /\
    requests (trace w') = [primary_url "expressjs" "-dark"] /\
    files w' = ∅.
Proof.
  intros i. split; [unfold ICONS; set_solver|].
  apply (C1_themed_variants_never_fall_back Sample.dir Sample.join
           Sample.net_404 Sample.sound 1 ICONS i "-dark" Sample.empty_disk (HTTP 404)
           (mkWorld ∅ [Get (primary_url "expressjs" "-dark")])).
  - reflexivity.
  - right; reflexivity.
  - reflexivity.
  - reflexivity.
Defined.

Lemma C2_witness :
  exists w',
    downloadIcon Sample.dir Sample.join Sample.net_200 Sample.sound 0 ICONS
      "rust" "" Sample.disk_with_rust = Some (true, w') /\
    trace w' = [Log "✓ rust.svg (exists)"] /\
    requests (trace w') = [] /\
    writes (trace w') = [] /\
    files w' = files Sample.disk_with_rust /\
    files w' !! Sample.join Sample.dir "rust.svg" = Some "anything at all".
Proof.
  apply (C2_existing_file_short_circuit Sample.dir Sample.join Sample.net_200
      Sample.sound
           0 ICONS "rust" "" Sample.disk_with_rust "anything at all").
  reflexivity.
Defined.


Lemma C3_witness :
  let i := icon "nextjs2" true in
  let w1 := mkWorld {[ Sample.join Sample.dir "nextjs2-light.svg" := "<svg>light</svg>" ]}
              [Get (primary_url "nextjs2" "-light");
               Write (Sample.join Sample.dir "nextjs2-light.svg") "<svg>light</svg>";
               Log "✓ nextjs2-light.svg (chanhdai)"] in
  let w2 := mkWorld (files w1)
              (trace w1 ++ [Get (primary_url "nextjs2" "-dark");
                            Log "✗ nextjs2-dark.svg (not found)"]) in
  exists c',
    main_body Sample.dir Sample.join Sample.net_light_only Sample.sound 1 ICONS i
      (mkCounters 0 0) Sample.empty_disk = Some (c', w2) /\
    (true = true /\ false = true <->
       success c' = 1%nat /\ failed c' = 0%nat) /\
    (true = false \/ false = false <->
       success c' = 0%nat /\ failed c' = 1%nat) /\
    (true = true -> false = false ->
       is_Some (files w2 !! Sample.join Sample.dir "nextjs2-light.svg") /\
       files w2 = files w1) /\
    (true = false -> false = true ->
       is_Some (files w2 !! Sample.join Sample.dir "nextjs2-dark.svg")).
Proof.
  intros i w1 w2.
  apply (C3_themed_entry_counts_once Sample.dir Sample.join
           Sample.net_light_only Sample.sound 1 ICONS i (mkCounters 0 0)
           Sample.empty_disk true w1 false w2).
  - reflexivity.
  - reflexivity.
  - reflexivity.
Defined.

Lemma C10_witness :
  (success (mkCounters 4 3) = S (success (mkCounters 3 3)) /\
   failed (mkCounters 4 3) = failed (mkCounters 3 3) \/
   success (mkCounters 4 3) = success (mkCounters 3 3) /\
   failed (mkCounters 4 3) = S (failed (mkCounters 3 3))) /\
  exists c w',
    main Sample.dir Sample.join Sample.net_rust Sample.sound 1 ICONS Sample.empty_disk
    = Some (c, w') /\
    c = mkCounters 1 44 /\
    (success c + failed c = length ICONS)%nat.
Proof.
  pose proof (C10_counts_add_up_to_catalog Sample.dir Sample.join
                Sample.net_rust Sample.sound 1 ICONS) as [Hstep Hsum].
  split.
  - apply (Hstep (icon_slug "rust" false "rust") (mkCounters 3 3)
             Sample.empty_disk (mkCounters 4 3)
             (mkWorld {[ Sample.join Sample.dir "rust.svg" := "<svg>...</svg>" ]}
                [Get (primary_url "rust" ""); Get (fallback_url "rust");
                 Write (Sample.join Sample.dir "rust.svg") "<svg>...</svg>";
                 Log "✓ rust.svg (simpleicons)"])).
    reflexivity.
  - destruct (main Sample.dir Sample.join Sample.net_rust Sample.sound 1 ICONS
                Sample.empty_disk) as [[c w']|] eqn:H; [|by vm_compute in H].
    exists c, w'. split; [done|]. split.
    + vm_compute in H. by inversion H.
    + exact (Hsum Sample.empty_disk c w' H).
Defined.




(** C5, for a Location header that is not empty.  Redirects.  A response
    whose status is in [300,400) and whose Location header is a non-empty
    string makes [download] fetch the Location URL with the same
    primitive, and the outcome of that fetch is the outcome of the call.
    A response in that range whose Location header is absent or the empty
    string is not followed: the promise is rejected with its status after
    that one request.  Nothing bounds the chain: a chain of redirects of
    any length that ends is followed to its end ([net_hops n] gives one of
    [n] redirects for every [n]), and a URL that keeps redirecting to
    itself is requested again and again, the promise never settling.  In
    particular, when the primary URL of a missing file answers 302 with
    the Location of a second URL that answers 200, the promise resolves
    with the body of the second URL, and that body is what [downloadIcon]
    writes when the write goes through. *)
Theorem C5_redirects_are_followed_without_bound
    (OUTPUT_DIR : string) (path_join : string -> string -> string)
    (net : Network) (writable : string -> string -> bool) :
  (forall fuel url (w : World) r next,
     net (requests (trace w)) url = Response r ->
     300 <= statusCode r < 400 ->
     location r = Some next ->
     next <> "" ->
     download net (S fuel) url w
     = download net fuel next (after w (files w) [Get url])) /\
  (forall fuel url (w : World) r,
     net (requests (trace w)) url = Response r ->
     300 <= statusCode r < 400 ->
     location r = None \/ location r = Some "" ->
     download net (S fuel) url w
     = Some (Rejected (HTTP (statusCode r)), after w (files w) [Get url])) /\
  (forall url urls final (w : World),
     follows net (requests (trace w)) url urls final ->
     exists s, download net (length urls) url w
               = Some (s, after w (files w) (map Get urls))) /\
  (forall (n k : nat) url,
     exists w', download (Sample.net_hops n) (S n + k) url Sample.empty_disk
                = Some (Resolved "<svg>far</svg>", w') /\
                length (requests (trace w')) = S n) /\
  (forall url,
     (forall h, exists r, net h url = Response r /\
                          300 <= statusCode r < 400 /\
                          location r = Some url /\ url <> "") ->
     forall fuel (w : World), download net fuel url w = None) /\
  (forall fuel icons key0 suffix (w : World) r1 second r2,
     files w !! outputPath OUTPUT_DIR path_join key0 suffix = None ->
     net (requests (trace w)) (primary_url key0 suffix) = Response r1 ->
     statusCode r1 = 302 ->
     location r1 = Some second ->
     second <> "" ->
     net (requests (trace w) ++ [primary_url key0 suffix]) second = Response r2 ->
     statusCode r2 = 200 ->
     ended r2 = true ->
     exists w1,
       download net (S (S fuel)) (primary_url key0 suffix) w
       = Some (Resolved (accumulate (chunks r2)), w1) /\
       requests (trace w1)
       = requests (trace w) ++ [primary_url key0 suffix; second] /\
       (writable (outputPath OUTPUT_DIR path_join key0 suffix)
          (accumulate (chunks r2)) = true ->
        exists w',
          downloadIcon OUTPUT_DIR path_join net writable (S (S fuel)) icons
            key0 suffix w = Some (true, w') /\
          writes (trace w')
          = writes (trace w) ++
              [(outputPath OUTPUT_DIR path_join key0 suffix,
                accumulate (chunks r2))] /\
          files w' !! outputPath OUTPUT_DIR path_join key0 suffix
          = Some (accumulate (chunks r2)))).
Proof.
  split; [|split; [|split; [|split; [|split]]]].
  - intros fuel url w r next Hn Hs Hl Hne.
    apply download_redirect with r; [done|]. by apply redirect_spec.
  - intros fuel url w r Hn Hs Hl.
    assert (redirect r = None) as Hr.
    { destruct (redirect r) as [x|] eqn:E; [|done].
      apply redirect_spec in E as (_ & Hx & Hne).
      destruct Hl as [Hl|Hl]; rewrite Hl in Hx; [done|]. by inversion Hx. }
    simpl. unfold bind, https_get, ret. rewrite Hn, Hr.
    destruct (Z.eqb_spec (statusCode r) 200) as [E|E]; [lia | done].
  - intros url urls final w Hf. exists (settle final).
    rewrite <- (Nat.add_0_r (length urls)). by eapply download_follows.
  - intros n k url. apply download_hops. simpl. lia.
  - intros url Hloop. apply download_loop. intros h.
    destruct (Hloop h) as (r & Hn & Hs & Hl & Hne).
    exists r. split; [done|]. by apply redirect_spec.
  - intros fuel icons key0 suffix w r1 second r2 Hf H1 S1 L1 Hne H2 S2 E2.
    assert (follows net (requests (trace w)) (primary_url key0 suffix)
              [primary_url key0 suffix; second] (Response r2)) as Hfo.
    { eapply follows_redirect; [exact H1| |].
      - apply redirect_spec. split; [lia|done].
      - apply follows_last; [done|].
        destruct (redirect r2) as [x|] eqn:Hr; [|done].
        apply redirect_spec in Hr. lia. }
    pose proof (download_follows net _ _ _ _ Hfo w fuel eq_refl) as Hd.
    simpl in Hd. rewrite S2, E2 in Hd. simpl in Hd.
    eexists. split; [exact Hd|]. split.
    { simpl. by rewrite requests_app. }
    intros Hw. eexists. split; [by eapply downloadIcon_primary|].
    simpl. rewrite !writes_app. simpl. rewrite app_nil_r.
    split; [done | apply lookup_insert_eq].
Qed.

Lemma C5_witness :
  (download Sample.net_mirror 2 (primary_url "rust" "") Sample.empty_disk
   = download Sample.net_mirror 1 Sample.mirror
       (mkWorld ∅ [Get (primary_url "rust" "")])) /\
  (download Sample.net_empty_location 2 (primary_url "rust" "")
     Sample.empty_disk
   = Some (Rejected (HTTP 302), mkWorld ∅ [Get (primary_url "rust" "")])) /\
  (exists s,
     download Sample.net_mirror 2 (primary_url "rust" "") Sample.empty_disk
     = Some (s, mkWorld ∅ [Get (primary_url "rust" ""); Get Sample.mirror])) /\
  (forall fuel,
     download Sample.net_loop fuel Sample.mirror Sample.empty_disk = None) /\
  exists w1 w',
    download Sample.net_mirror 2 (primary_url "rust" "") Sample.empty_disk
    = Some (Resolved "<svg>mirror</svg>", w1) /\
    requests (trace w1) = [primary_url "rust" ""; Sample.mirror] /\
    downloadIcon Sample.dir Sample.join Sample.net_mirror Sample.sound 2
      ICONS "rust" "" Sample.empty_disk = Some (true, w') /\
    writes (trace w')
    = [(Sample.join Sample.dir "rust.svg", "<svg>mirror</svg>")] /\
    files w' !! Sample.join Sample.dir "rust.svg" = Some "<svg>mirror</svg>".
Proof.
  pose proof (C5_redirects_are_followed_without_bound Sample.dir Sample.join
                Sample.net_mirror Sample.sound)
    as (Hstep & _ & Hchain & _ & _ & Hfile).
  pose proof (C5_redirects_are_followed_without_bound Sample.dir Sample.join
                Sample.net_loop Sample.sound) as (_ & _ & _ & _ & Hloop & _).
  pose proof (C5_redirects_are_followed_without_bound Sample.dir Sample.join
                Sample.net_empty_location Sample.sound) as (_ & Hempty & _).
  split; [|split; [|split; [|split]]].
  - apply (Hstep 1%nat (primary_url "rust" "") Sample.empty_disk
             (mkResponse 302 (Some Sample.mirror) [] true) Sample.mirror).
    + reflexivity.
    + simpl; lia.
    + reflexivity.
    + discriminate.
  - apply (Hempty 1%nat (primary_url "rust" "") Sample.empty_disk
             (mkResponse 302 (Some "") [] true)).
    + reflexivity.
    + simpl; lia.
    + right. reflexivity.
  - apply (Hchain (primary_url "rust" "")
             [primary_url "rust" ""; Sample.mirror]
             (Sample.ok ["<svg>mirror</svg>"]) Sample.empty_disk).
    apply follows_redirect
      with (mkResponse 302 (Some Sample.mirror) [] true) Sample.mirror;
      [reflexivity | reflexivity |].
    apply follows_last; reflexivity.
  - intros fuel. apply (Hloop Sample.mirror). intros h.
    exists (mkResponse 301 (Some Sample.mirror) [] true).
    split; [reflexivity|]. split; [simpl; lia|]. split; [reflexivity|].
    discriminate.
  - destruct (Hfile 0%nat ICONS "rust" "" Sample.empty_disk
                (mkResponse 302 (Some Sample.mirror) [] true) Sample.mirror
                (mkResponse 200 None ["<svg>mirror</svg>"] true))
      as (w1 & Hd & Hr & Hwrite).
    + reflexivity.
    + reflexivity.
    + reflexivity.
    + reflexivity.
    + discriminate.
    + reflexivity.
    + reflexivity.
    + reflexivity.
    + destruct (Hwrite eq_refl) as (w' & Hi & Hw & Hf).
      exists w1, w'. done.
Defined.

(** C5 as stated fails when the Location header is the empty string: the
    response is a 302 that carries a Location header, yet [download] does
    not fetch it; it rejects with "HTTP 302" after its single request. *)
Lemma C5_counterexample :
  let url := primary_url "rust" "" in
  let r := mkResponse 302 (Some "") [] true in
  Sample.net_empty_location [] url = Response r /\
  300 <= statusCode r < 400 /\
  location r = Some "" /\
  download Sample.net_empty_location 2 url Sample.empty_disk
  = Some (Rejected (HTTP 302), mkWorld ∅ [Get url]) /\
  download Sample.net_empty_location 2 url Sample.empty_disk
  <> download Sample.net_empty_location 1 ""
       (after Sample.empty_disk ∅ [Get url]).
Proof.
  intros url r. split; [reflexivity|]. split; [simpl; lia|].
  split; [reflexivity|]. split; [reflexivity|].
  vm_compute. discriminate.
Qed.




Lemma C8_witness :
  exists c w' blocks lines,
    main Sample.dir Sample.join Sample.net_light_only Sample.sound 1 Sample.two_icons
      Sample.empty_disk = Some (c, w') /\
    trace w' = banner Sample.dir ++ concat blocks ++ summary c /\
    Forall2 (fun t b => attempt_block Sample.dir Sample.join t.1 t.2 b)
      [("nextjs2", "-light"); ("nextjs2", "-dark"); ("rust", "")] blocks /\
    logs (trace w') = logs (banner Sample.dir) ++ lines ++ logs (summary c) /\
    Forall2 (fun t line => progress_line (filename t.1 t.2) line)
      [("nextjs2", "-light"); ("nextjs2", "-dark"); ("rust", "")] lines.
Proof.
  destruct (main Sample.dir Sample.join Sample.net_light_only Sample.sound 1
              Sample.two_icons Sample.empty_disk) as [[c w']|] eqn:H;
    [|by vm_compute in H].
  destruct (C8_files_in_catalog_order Sample.dir Sample.join
              Sample.net_light_only Sample.sound 1 Sample.two_icons Sample.empty_disk
              c w' H) as (blocks & lines & T & B & L & P).
  exists c, w', blocks, lines. done.
Defined.

(** * Further properties of the script *)

(** ** Strings *)

Lemma string_app_cons a (s t : string) :
  String a s +:+ t = String a (s +:+ t).
Proof. reflexivity. Qed.

Lemma string_app_nil_r (s : string) : s +:+ "" = s.
Proof.
  induction s as [|a s IH]; [done|]. by rewrite string_app_cons, IH.
Qed.

Lemma string_app_assoc (s t u : string) : (s +:+ t) +:+ u = s +:+ t +:+ u.
Proof.
  induction s as [|a s IH]; [done|]. by rewrite !string_app_cons, IH.
Qed.

Lemma accumulate_from (acc : string) (cs : list string) :
  foldl String.append acc cs = acc +:+ accumulate cs.
Proof.
  unfold accumulate. revert acc.
  induction cs as [|c cs IH]; intros acc; simpl.
  - by rewrite string_app_nil_r.
  - rewrite IH, (IH ("" +:+ c)). change ("" +:+ c) with c.
    by rewrite string_app_assoc.
Qed.

(** The tick and the cross differ, whatever follows them. *)
Lemma tick_is_not_cross (f g : string) : "✓ " +:+ f <> "✗ " +:+ g.
Proof. intros H. cbv [String.append] in H. congruence. Qed.

(** X2.  The body that [download] resolves with is the chunks of the
    response joined in the order of arrival, with nothing in between:
    no chunk gives the empty string, and splitting the stream of chunks
    in two splits the body in two. *)
Theorem accumulate_is_concatenation (cs cs' : list string) :
  accumulate cs = String.concat "" cs /\
  accumulate [] = "" /\
  accumulate (cs ++ cs') = accumulate cs +:+ accumulate cs'.
Proof.
  split; [|split; [done|]].
  - induction cs as [|c cs IH]; [done|].
    unfold accumulate in *. simpl. rewrite accumulate_from.
    change ("" +:+ c) with c. unfold accumulate. rewrite IH.
    destruct cs as [|c' cs]; [by rewrite string_app_nil_r | done].
  - unfold accumulate. rewrite foldl_app. apply accumulate_from.
Qed.

(** ** The fetch primitive, further *)

Lemma download_effects (net : Network) fuel url (w : World) s w' :
  download net fuel url w = Some (s, w') ->
  files w' = files w /\
  logs (trace w') = logs (trace w) /\
  writes (trace w') = writes (trace w) /\
  exists urls,
    trace w' = trace w ++ map Get (url :: urls) /\
    requests (trace w') = requests (trace w) ++ url :: urls.
Proof.
  intros H. apply download_world in H as [urls ->]. simpl.
  rewrite logs_app, writes_app, requests_app. simpl.
  rewrite logs_gets, writes_gets, requests_gets, !app_nil_r.
  split; [done|]. split; [done|]. split; [done|]. by exists urls.
Qed.

(** X1.  [download] only talks to the network.  When its promise has
    settled, the disk is the one it started from, nothing was printed and
    nothing written; the events it added are requests, the first of them
    to the URL it was called with. *)
Theorem download_only_requests
    (net : Network) fuel url (w : World) s w' :
  download net fuel url w = Some (s, w') ->
  files w' = files w /\
  logs (trace w') = logs (trace w) /\
  writes (trace w') = writes (trace w) /\
  exists urls,
    trace w' = trace w ++ map Get (url :: urls) /\
    requests (trace w') = requests (trace w) ++ url :: urls.
Proof.
  intros H. apply download_inv in H as (urls & final & Hf & _ & _ & ->).
  assert (exists rest, urls = url :: rest) as [rest ->]
    by (inversion Hf; subst; eauto).
  simpl. rewrite logs_app, writes_app, requests_app. simpl.
  rewrite logs_gets, writes_gets, requests_gets, !app_nil_r.
  split; [done|]. split; [done|]. split; [done|]. by exists rest.
Qed.

Lemma download_only_requests_witness :
  files (mkWorld ∅ [Get (primary_url "rust" ""); Get Sample.mirror])
  = files Sample.empty_disk /\
  logs [Get (primary_url "rust" ""); Get Sample.mirror] = [] /\
  writes [Get (primary_url "rust" ""); Get Sample.mirror] = [] /\
  exists urls,
    [Get (primary_url "rust" ""); Get Sample.mirror]
    = map Get (primary_url "rust" "" :: urls) /\
    [primary_url "rust" ""; Sample.mirror] = primary_url "rust" "" :: urls.
Proof.
  apply (download_only_requests Sample.net_mirror 2 (primary_url "rust" "")
           Sample.empty_disk (Resolved "<svg>mirror</svg>")
           (mkWorld ∅ [Get (primary_url "rust" ""); Get Sample.mirror])).
  reflexivity.
Defined.

(** X3.  Answers that are not followed settle the promise after a single
    request.  A 200 whose stream ends resolves with the body, a Location
    header on it being ignored.  Any other status rejects with that status
    when it is below 300 or at least 400 (201, 204, 404, 500, ...), or when
    the response has no Location header or an empty one (a bare 304). *)
Theorem download_answers_not_followed
    (net : Network) fuel url (w : World) r :
  net (requests (trace w)) url = Response r ->
  (statusCode r = 200 -> ended r = true ->
     download net (S fuel) url w
     = Some (Resolved (accumulate (chunks r)),
             after w (files w) [Get url])) /\
  (statusCode r <> 200 ->
     statusCode r < 300 \/ 400 <= statusCode r \/
     location r = None \/ location r = Some "" ->
     download net (S fuel) url w
     = Some (Rejected (HTTP (statusCode r)), after w (files w) [Get url])).
Proof.
  intros Hn. split.
  - intros Hs He.
    assert (redirect r = None) as Hr.
    { destruct (redirect r) as [x|] eqn:E; [|done].
      apply redirect_spec in E. lia. }
    simpl. unfold bind, https_get, ret. by rewrite Hn, Hr, Hs, He.
  - intros Hs Hcase.
    assert (redirect r = None) as Hr.
    { destruct (redirect r) as [x|] eqn:E; [|done].
      apply redirect_spec in E as (Hb & Hl & Hne).
      destruct Hcase as [?|[?|[?|?]]]; [lia | lia | congruence | congruence]. }
    simpl. unfold bind, https_get, ret. rewrite Hn, Hr.
    by destruct (Z.eqb_spec (statusCode r) 200).
Qed.

Lemma download_answers_not_followed_witness :
  download Scenario.net_ok_with_location 1 "https://a.example/x.svg"
    Sample.empty_disk
  = Some (Resolved "<svg>here</svg>", mkWorld ∅ [Get "https://a.example/x.svg"]) /\
  download Scenario.net_created 1 "https://a.example/x.svg" Sample.empty_disk
  = Some (Rejected (HTTP 201), mkWorld ∅ [Get "https://a.example/x.svg"]).
Proof.
  split.
  - apply (proj1 (download_answers_not_followed Scenario.net_ok_with_location
                    0 "https://a.example/x.svg" Sample.empty_disk
                    Scenario.ok_with_location eq_refl));
      reflexivity.
  - apply (proj2 (download_answers_not_followed Scenario.net_created
                    0 "https://a.example/x.svg" Sample.empty_disk
                    Scenario.created eq_refl)).
    + discriminate.
    + left. reflexivity.
Defined.

(** ** Resolving one target file, further *)

Section MoreDownloadIcon.

Variable OUTPUT_DIR : string.
Variable path_join : string -> string -> string.
Variable net : Network.
Variable writable : string -> string -> bool.
Variable icons : list Icon.

Abbreviation the_path := (outputPath OUTPUT_DIR path_join).
Abbreviation fetch_icon := (downloadIcon OUTPUT_DIR path_join net writable).

(** [find] on a catalog without the key, and on one whose first entry
    with the key is known. *)
Lemma find_unknown_key key0 :
  (forall i, i ∈ icons -> key i <> key0) ->
  find (fun i => String.eqb (key i) key0) icons = None.
Proof.
  induction icons as [|j l IH]; intros H; simpl; [done|].
  destruct (String.eqb_spec (key j) key0) as [E|E].
  - exfalso. apply (H j); [by left | done].
  - apply IH. intros i Hi. apply H. by right.
Qed.

Lemma find_first_match key0 pre i post :
  icons = pre ++ i :: post ->
  (forall j, j ∈ pre -> key j <> key0) ->
  key i = key0 ->
  find (fun i => String.eqb (key i) key0) icons = Some i.
Proof.
  intros -> Hpre Hi. induction pre as [|j pre IH]; simpl.
  - by rewrite Hi, String.eqb_refl.
  - destruct (String.eqb_spec (key j) key0) as [E|E].
    + exfalso. apply (Hpre j); [by left | done].
    + apply IH. intros k Hk. apply Hpre. by right.
Qed.

(** A resolution leaves every other path of the disk alone. *)
Lemma resolution_frame fuel key0 suffix (w : World) ok w' path :
  resolution OUTPUT_DIR path_join net writable icons fuel key0 suffix w ok w' ->
  path <> the_path key0 suffix ->
  files w' !! path = files w !! path.
Proof.
  destruct 1; intros Hne; worlds; simpl;
    rewrite ?lookup_insert_ne by done; done.
Qed.

(** X4.  The primary host comes first.  When the file is absent, the
    fetch from the primary host resolves and the write of its body goes
    through, [downloadIcon] returns [true], the file holds exactly the
    resolved body, every other path of the disk is as before, and no
    request follows those of that one fetch: the fallback host is not
    contacted, whether or not the catalog declares a slug for the key. *)
Theorem downloadIcon_primary_first
    fuel key0 suffix (w : World) svg w1 :
  files w !! the_path key0 suffix = None ->
  download net fuel (primary_url key0 suffix) w = Some (Resolved svg, w1) ->
  writable (the_path key0 suffix) svg = true ->
  exists w',
    fetch_icon fuel icons key0 suffix w = Some (true, w') /\
    files w' = <[the_path key0 suffix := svg]> (files w) /\
    requests (trace w') = requests (trace w1) /\
    writes (trace w') = writes (trace w) ++ [(the_path key0 suffix, svg)] /\
    logs (trace w') = logs (trace w) ++
      ["✓ " +:+ filename key0 suffix +:+ " (chanhdai)"].
Proof.
  intros Hf Hd Hw. eexists. split; [by eapply downloadIcon_primary|].
  apply download_effects in Hd as (F & L & W & _).
  simpl. rewrite requests_app, writes_app, logs_app, F, L, W. simpl.
  by rewrite app_nil_r.
Qed.


(** X5.  Both sources failing.  When the file is absent, the catalog makes
    the key eligible for the fallback (its first entry with that key
    declares a non-empty slug, and the suffix is empty), and both fetches
    are rejected, [downloadIcon] returns [false] after the requests of the
    primary fetch followed by those of the fallback fetch; it prints the
    "not found" line, writes nothing and leaves the disk as it was. *)
Theorem downloadIcon_both_sources_fail
    fuel key0 (w : World) pre i post slug e w1 e2 w2 :
  icons = pre ++ i :: post ->
  (forall j, j ∈ pre -> key j <> key0) ->
  key i = key0 ->
  simpleIconsSlug i = Some slug ->
  slug <> "" ->
  files w !! the_path key0 "" = None ->
  download net fuel (primary_url key0 "") w = Some (Rejected e, w1) ->
  download net fuel (SIMPLE_ICONS_BASE +:+ "/" +:+ slug) w1
  = Some (Rejected e2, w2) ->
  exists w',
    fetch_icon fuel icons key0 "" w = Some (false, w') /\
    files w' = files w /\
    writes (trace w') = writes (trace w) /\
    (exists urls urls2,
       requests (trace w') = requests (trace w)
         ++ (primary_url key0 "" :: urls)
         ++ ((SIMPLE_ICONS_BASE +:+ "/" +:+ slug) :: urls2)) /\
    logs (trace w') = logs (trace w) ++
      ["✗ " +:+ filename key0 "" +:+ " (not found)"].
Proof.
  intros Hi Hpre Hk Hs Hne Hf Hd1 Hd2.
  assert (eligible_slug icons key0 "" = Some slug) as He.
  { unfold eligible_slug.
    rewrite (find_first_match _ _ _ _ Hi Hpre Hk). simpl. rewrite Hs. simpl.
    unfold truthy. by destruct (String.eqb_spec slug ""). }
  eexists. split; [by eapply downloadIcon_fallback_failed|].
  apply download_effects in Hd1 as (F1 & L1 & W1 & (u1 & _ & R1)).
  apply download_effects in Hd2 as (F2 & L2 & W2 & (u2 & _ & R2)).
  simpl. rewrite requests_app, writes_app, logs_app. simpl.
  rewrite !app_nil_r, F2, F1, W2, W1, L2, L1, R2, R1.
  split; [done|]. split; [done|]. split; [|done].
  exists u1, u2. by rewrite <- app_assoc.
Qed.

(** X6.  Keys without a usable slug.  The fallback host is not contacted
    when the key is not in the catalog at all, or when the first catalog
    entry with that key declares no slug or an empty one (later entries
    with the same key are not looked at).  With the file absent and the
    primary fetch rejected, [downloadIcon] then returns [false] right after
    the requests of the primary fetch and the disk is as it was. *)
Theorem downloadIcon_without_usable_slug
    fuel key0 suffix (w : World) e w1 :
  (forall i, i ∈ icons -> key i <> key0) \/
  (exists pre i post,
     icons = pre ++ i :: post /\
     (forall j, j ∈ pre -> key j <> key0) /\
     key i = key0 /\
     (simpleIconsSlug i = None \/ simpleIconsSlug i = Some "")) ->
  files w !! the_path key0 suffix = None ->
  download net fuel (primary_url key0 suffix) w = Some (Rejected e, w1) ->
  exists w',
    fetch_icon fuel icons key0 suffix w = Some (false, w') /\
    files w' = files w /\
    requests (trace w') = requests (trace w1) /\
    writes (trace w') = writes (trace w) /\
    logs (trace w') = logs (trace w) ++
      ["✗ " +:+ filename key0 suffix +:+ " (not found)"].
Proof.
  intros Hcat Hf Hd.
  assert (eligible_slug icons key0 suffix = None) as He.
  { unfold eligible_slug. destruct Hcat as [Hno | (pre & i & post & Hi & Hpre & Hk & Hs)].
    - by rewrite (find_unknown_key _ Hno).
    - rewrite (find_first_match _ _ _ _ Hi Hpre Hk). simpl.
      by destruct Hs as [-> | ->]. }
  eexists. split; [by eapply downloadIcon_not_found|].
  apply download_effects in Hd as (F & L & W & _).
  simpl. rewrite requests_app, writes_app, logs_app, F, L, W. simpl.
  by rewrite !app_nil_r.
Qed.


End MoreDownloadIcon.

Lemma downloadIcon_primary_first_witness :
  let p := Sample.join Sample.dir "rust.svg" in
  exists w',
    downloadIcon Sample.dir Sample.join Scenario.net_primary_only Sample.sound 1 ICONS
      "rust" "" Sample.empty_disk = Some (true, w') /\
    files w' = <[p := "<svg>primary</svg>"]> ∅ /\
    requests (trace w') = [primary_url "rust" ""] /\
    writes (trace w') = [(p, "<svg>primary</svg>")] /\
    logs (trace w') = ["✓ rust.svg (chanhdai)"].
Proof.
  intros p.
  apply (downloadIcon_primary_first Sample.dir Sample.join
           Scenario.net_primary_only Sample.sound ICONS 1 "rust" "" Sample.empty_disk
           "<svg>primary</svg>" (mkWorld ∅ [Get (primary_url "rust" "")])).
  - reflexivity.
  - reflexivity.
  - reflexivity.
Defined.


Lemma downloadIcon_both_sources_fail_witness :
  exists w',
    downloadIcon Sample.dir Sample.join Sample.net_404 Sample.sound 1 Sample.two_icons
      "rust" "" Sample.empty_disk = Some (false, w') /\
    files w' = ∅ /\
    writes (trace w') = [] /\
    (exists urls urls2,
       requests (trace w')
       = (primary_url "rust" "" :: urls)
         ++ ("https://cdn.simpleicons.org/rust" :: urls2)) /\
    logs (trace w') = ["✗ rust.svg (not found)"].
Proof.
  apply (downloadIcon_both_sources_fail Sample.dir Sample.join Sample.net_404
      Sample.sound
           Sample.two_icons 1 "rust" Sample.empty_disk
           [icon "nextjs2" true] (icon_slug "rust" false "rust") [] "rust"
           (HTTP 404) (mkWorld ∅ [Get (primary_url "rust" "")])
           (HTTP 404)
           (mkWorld ∅ [Get (primary_url "rust" "");
                       Get "https://cdn.simpleicons.org/rust"])).
  - reflexivity.
  - intros j ->%list_elem_of_singleton. discriminate.
  - reflexivity.
  - reflexivity.
  - discriminate.
  - reflexivity.
  - reflexivity.
  - reflexivity.
Defined.

Lemma downloadIcon_without_usable_slug_witness :
  (exists w',
     downloadIcon Sample.dir Sample.join Sample.net_rust Sample.sound 1
         Scenario.twice_rust
       "rust" "" Sample.empty_disk = Some (false, w') /\
     files w' = ∅ /\
     requests (trace w') = [primary_url "rust" ""] /\
     writes (trace w') = [] /\
     logs (trace w') = ["✗ rust.svg (not found)"]) /\
  (exists w',
     downloadIcon Sample.dir Sample.join Sample.net_rust Sample.sound 1 ICONS
       "golang" "" Sample.empty_disk = Some (false, w') /\
     files w' = ∅ /\
     requests (trace w') = [primary_url "golang" ""] /\
     writes (trace w') = [] /\
     logs (trace w') = ["✗ golang.svg (not found)"]).
Proof.
  split.
  - apply (downloadIcon_without_usable_slug Sample.dir Sample.join
             Sample.net_rust Sample.sound Scenario.twice_rust 1 "rust" "" Sample.empty_disk
             (HTTP 404) (mkWorld ∅ [Get (primary_url "rust" "")])).
    + right. exists [], (icon "rust" false), [icon_slug "rust" false "rust"].
      split; [reflexivity|].
      split; [intros j Hj; by apply elem_of_nil in Hj|].
      split; [reflexivity | left; reflexivity].
    + reflexivity.
    + reflexivity.
  - apply (downloadIcon_without_usable_slug Sample.dir Sample.join
             Sample.net_rust Sample.sound ICONS 1 "golang" "" Sample.empty_disk
             (HTTP 404) (mkWorld ∅ [Get (primary_url "golang" "")])).
    + left. intros i Hi.
      assert (Forall (fun j => key j <> "golang") ICONS) as Hall
        by (apply (bool_decide_unpack _); by vm_compute).
      rewrite Forall_forall in Hall. by apply Hall.
    + reflexivity.
    + reflexivity.
Defined.


(** ** The driver, further *)

Section MoreMain.

Variable OUTPUT_DIR : string.
Variable path_join : string -> string -> string.
Variable net : Network.
Variable writable : string -> string -> bool.
Variable icons : list Icon.

Abbreviation path_at := (fun t : string * string =>
  outputPath OUTPUT_DIR path_join t.1 t.2).
Abbreviation settled := (resolution OUTPUT_DIR path_join net writable icons).
Abbreviation run_body := (main_body OUTPUT_DIR path_join net writable).
Abbreviation run_loop := (main_loop OUTPUT_DIR path_join net writable).
Abbreviation run := (main OUTPUT_DIR path_join net writable).

(** *** Fuel *)

Lemma resolution_mono fuel key0 suffix (w : World) ok w' (k : nat) :
  settled fuel key0 suffix w ok w' ->
  settled (fuel + k) key0 suffix w ok w'.
Proof.
  intros H.
  destruct H as [Hex | svg w1 Hn Hd Hw | w1 slug svg w2 Hn Hf He Hd2 Hw
                | w1 slug w2 Hn Hf He Hf2 | w1 Hn Hf He].
  - by apply res_exists.
  - apply res_primary; [done | by apply download_mono | done].
  - eapply res_fallback;
      [done | by apply fails_mono | done | by apply download_mono | done].
  - eapply res_fallback_failed;
      [done | by apply fails_mono | done | by apply fails_mono].
  - eapply res_not_found; [done | by apply fails_mono | done].
Qed.

Lemma main_body_mono fuel i c (w : World) x (k : nat) :
  run_body fuel icons i c w = Some x ->
  run_body (fuel + k) icons i c w = Some x.
Proof.
  destruct x as [c' w']. intros H. destruct (hasTheme i) eqn:Ht.
  - apply main_body_themed in H as (l & d & w1 & Hl & Hd & ->); [|done].
    apply main_body_themed; [done|]. exists l, d, w1.
    split; [by apply resolution_mono|]. split; [by apply resolution_mono|done].
  - apply main_body_plain in H as (ok & Hd & ->); [|done].
    apply main_body_plain; [done|]. exists ok.
    split; [by apply resolution_mono | done].
Qed.

Lemma main_loop_mono fuel (k : nat) rest : forall c (w : World) x,
  run_loop fuel icons rest c w = Some x ->
  run_loop (fuel + k) icons rest c w = Some x.
Proof.
  induction rest as [|i rest IH]; intros c w x H; simpl in *; [done|].
  unfold bind in *.
  destruct (run_body fuel icons i c w) as [[c1 w1]|] eqn:Hb; [|done].
  rewrite (main_body_mono _ _ _ _ _ k Hb). by apply IH.
Qed.

Lemma main_mono fuel (w : World) x (k : nat) :
  run fuel icons w = Some x -> run (fuel + k) icons w = Some x.
Proof.
  destruct x as [c w']. intros H.
  apply main_unfold in H as (w1 & Hl & ->).
  apply main_unfold. exists w1. split; [by apply main_loop_mono | done].
Qed.

(** X8.  The run always comes to its end when redirects do.  If every
    chain of redirects of the network ends within [d] requests, [main]
    returns its counts, whatever fails on the way; and the counts and the
    final world are the same for every larger bound. *)
Theorem main_returns_when_redirects_end (d : nat) (w : World) :
  bounded net d ->
  exists c w',
    (success c + failed c = length icons)%nat /\
    forall k : nat, run (d + k) icons w = Some (c, w').
Proof.
  intros Hb.
  destruct (main_returns OUTPUT_DIR path_join net writable icons d Hb w) as (c
      & w' & H).
  exists c, w'. split.
  - apply main_unfold in H as (w1 & Hl & _).
    apply main_loop_summary in Hl as (_ & Hsum & _). simpl in Hsum. lia.
  - intros k. by apply main_mono.
Qed.

(** *** Redirect loops *)

Lemma resolution_needs_primary fuel key0 suffix (w : World) ok w' :
  settled fuel key0 suffix w ok w' ->
  loops_at net (primary_url key0 suffix) ->
  is_Some (files w !! path_at (key0, suffix)).
Proof.
  intros H Hloop.
  assert (forall w1, ~ fails net writable fuel (primary_url key0 suffix)
                       (path_at (key0, suffix)) w w1) as Hno.
  { intros w1 [[e Hd] | (svg & Hd & _)];
      by rewrite (download_loop net _ Hloop) in Hd. }
  destruct H as [Hex | svg w1 Hn Hd Hw | w1 slug svg w2 Hn Hf He Hd2 Hw
                | w1 slug w2 Hn Hf He Hf2 | w1 Hn Hf He];
    [done | | by apply Hno in Hf ..].
  by rewrite (download_loop net _ Hloop) in Hd.
Qed.

Lemma main_loop_cannot_pass fuel t rest : forall c (w : World) c' w',
  run_loop fuel icons rest c w = Some (c', w') ->
  loops_at net (primary_url t.1 t.2) ->
  (forall t', t' ∈ targets rest -> path_at t' = path_at t ->
     filename t'.1 t'.2 = filename t.1 t.2) ->
  files w !! path_at t = None ->
  (t ∉ targets rest) /\ files w' !! path_at t = None.
Proof.
  assert (forall key0 suffix (w : World) ok w',
            settled fuel key0 suffix w ok w' ->
            loops_at net (primary_url t.1 t.2) ->
            (path_at (key0, suffix) = path_at t ->
               filename key0 suffix = filename t.1 t.2) ->
            files w !! path_at t = None ->
            (key0, suffix) <> t /\ files w' !! path_at t = None) as Hone.
  { intros key0 suffix w ok w' H Hloop Hsame Hn.
    destruct (decide (path_at (key0, suffix) = path_at t)) as [E|E].
    - exfalso. apply resolution_needs_primary in H.
      + rewrite E, Hn in H. by destruct H.
      + unfold primary_url. rewrite (Hsame E). exact Hloop.
    - split; [intros <-; done|].
      rewrite (resolution_frame _ _ _ _ _ _ _ _ _ _ _ _ H); [done|].
      intros E'. by apply E. }
  induction rest as [|i rest IH]; intros c w c' w' H Hloop Hsame Hn; simpl in H.
  - inversion H; subst. split; [apply not_elem_of_nil | done].
  - unfold bind in H.
    destruct (run_body fuel icons i c w) as [[c1 w1]|] eqn:Hb; [|done].
    assert (forall t', t' ∈ targets_of i -> t' ∈ targets (i :: rest)) as Hin1
      by (intros t' Ht'; unfold targets; simpl; apply elem_of_app; by left).
    assert (forall t', t' ∈ targets rest -> t' ∈ targets (i :: rest)) as Hin2
      by (intros t' Ht'; unfold targets; simpl; apply elem_of_app; by right).
    assert ((t ∉ targets_of i) /\ files w1 !! path_at t = None) as [Hni Hn1].
    { unfold targets_of in *. destruct (hasTheme i) eqn:Ht.
      - apply main_body_themed in Hb as (l & d & wl & Hl & Hd & _); [|done].
        destruct (Hone _ _ _ _ _ Hl Hloop) as [N1 Hnl]; [|done|].
        { intros E. apply (Hsame (key i, "-light")); [|done].
          apply Hin1. by left. }
        destruct (Hone _ _ _ _ _ Hd Hloop) as [N2 Hnd]; [|done|].
        { intros E. apply (Hsame (key i, "-dark")); [|done].
          apply Hin1. right. by left. }
        split; [|done]. intros Hin.
        apply elem_of_cons in Hin as [->|Hin]; [done|].
        by apply list_elem_of_singleton in Hin as ->.
      - apply main_body_plain in Hb as (ok & Hd & _); [|done].
        destruct (Hone _ _ _ _ _ Hd Hloop) as [N1 Hnd]; [|done|].
        { intros E. apply (Hsame (key i, "")); [|done]. apply Hin1. by left. }
        split; [|done]. intros Hin.
        by apply list_elem_of_singleton in Hin as ->. }
    destruct (IH _ _ _ _ H Hloop) as [Hnr Hn']; [|done|].
    { intros t' Ht'. apply Hsame. by apply Hin2. }
    split; [|done]. unfold targets; simpl. rewrite elem_of_app. tauto.
Qed.

(** X9.  A redirect loop stalls the whole run.  Let the primary URL of a
    target of the catalog redirect to itself for ever, the file of that
    target be absent, and no other target with another file name share
    its output path.  Then [downloadIcon] on that target never returns,
    and neither does [main]: no summary is ever printed. *)
Theorem main_stalls_on_redirect_loop (t : string * string) (w : World) :
  loops_at net (primary_url t.1 t.2) ->
  files w !! path_at t = None ->
  t ∈ targets icons ->
  (forall t', t' ∈ targets icons -> path_at t' = path_at t ->
     filename t'.1 t'.2 = filename t.1 t.2) ->
  (forall fuel,
     downloadIcon OUTPUT_DIR path_join net writable fuel icons t.1 t.2 w = None) /\
  (forall fuel, run fuel icons w = None).
Proof.
  intros Hloop Hn Hin Hsame. split.
  - intros fuel.
    destruct (downloadIcon _ _ _ _ fuel icons t.1 t.2 w) as [[ok w']|] eqn:H;
      [|done].
    apply downloadIcon_resolution, resolution_needs_primary in H; [|done].
    simpl in *. rewrite Hn in H. by destruct H.
  - intros fuel. destruct (run fuel icons w) as [[c w']|] eqn:H; [|done].
    apply main_unfold in H as (w1 & Hl & _).
    apply (main_loop_cannot_pass _ t) in Hl as [Hni _]; done.
Qed.

(** *** A network that serves nothing *)

Lemma never_200_rejects fuel url (w : World) s w' :
  never_200 net ->
  download net fuel url w = Some (s, w') ->
  is_rejected s.
Proof.
  intros Hno H. apply download_inv in H as (urls & final & Hf & _ & -> & _).
  assert (forall r, final = Response r -> statusCode r <> 200) as Hr.
  { clear -Hf Hno. induction Hf; intros r' E; try done.
    - inversion E; subst. by eapply Hno.
    - by apply IHHf. }
  destruct final as [|r]; simpl; [done|].
  specialize (Hr r eq_refl).
  by destruct (Z.eqb_spec (statusCode r) 200).
Qed.

Lemma never_200_fails fuel url path (w w1 : World) :
  never_200 net ->
  fails net writable fuel url path w w1 ->
  files w1 = files w /\ writes (trace w1) = writes (trace w).
Proof.
  intros Hno [[e Hd] | (svg & Hd & _)].
  - by apply download_effects in Hd as (F & _ & W & _).
  - by apply never_200_rejects in Hd.
Qed.

Lemma resolution_never_200 fuel key0 suffix (w : World) ok w' :
  never_200 net ->
  settled fuel key0 suffix w ok w' ->
  files w' = files w /\
  writes (trace w') = writes (trace w) /\
  ok = bool_decide (is_Some (files w !! path_at (key0, suffix))).
Proof.
  intros Hno H.
  destruct H as [Hex | svg w1 Hn Hd Hw | w1 slug svg w2 Hn Hf He Hd2 Hw
                | w1 slug w2 Hn Hf He Hf2 | w1 Hn Hf He]; simpl.
  - rewrite writes_app, app_nil_r. by rewrite bool_decide_eq_true_2.
  - by apply never_200_rejects in Hd.
  - by apply never_200_rejects in Hd2.
  - apply (never_200_fails _ _ _ _ _ Hno) in Hf as (F1 & W1).
    apply (never_200_fails _ _ _ _ _ Hno) in Hf2 as (F2 & W2).
    rewrite writes_app, app_nil_r, F2, F1, W2, W1.
    rewrite bool_decide_eq_false_2; [done|]. rewrite Hn. by intros [? ?].
  - apply (never_200_fails _ _ _ _ _ Hno) in Hf as (F1 & W1).
    rewrite writes_app, app_nil_r, F1, W1.
    rewrite bool_decide_eq_false_2; [done|]. rewrite Hn. by intros [? ?].
Qed.

Lemma main_loop_never_200 fuel rest : forall c (w : World) c' w',
  never_200 net ->
  run_loop fuel icons rest c w = Some (c', w') ->
  files w' = files w /\
  writes (trace w') = writes (trace w) /\
  success c' = (success c + length (List.filter
                  (complete OUTPUT_DIR path_join (files w)) rest))%nat.
Proof.
  induction rest as [|i rest IH]; intros c w c' w' Hno H; simpl in H.
  - inversion H; subst. simpl. by rewrite Nat.add_0_r.
  - unfold bind in H.
    destruct (run_body fuel icons i c w) as [[c1 w1]|] eqn:Hb; [|done].
    assert (files w1 = files w /\ writes (trace w1) = writes (trace w) /\
            c1 = count (complete OUTPUT_DIR path_join (files w) i) c)
      as (F1 & W1 & ->).
    { unfold complete, targets_of. destruct (hasTheme i) eqn:Ht.
      - apply main_body_themed in Hb as (l & d & wl & Hl & Hd & ->); [|done].
        apply (resolution_never_200 _ _ _ _ _ _ Hno) in Hl as (Fl & Wl & ->).
        apply (resolution_never_200 _ _ _ _ _ _ Hno) in Hd as (Fd & Wd & ->).
        simpl. rewrite Fd, Fl, Wd, Wl, andb_true_r. done.
      - apply main_body_plain in Hb as (ok & Hd & ->); [|done].
        apply (resolution_never_200 _ _ _ _ _ _ Hno) in Hd as (Fd & Wd & ->).
        simpl. by rewrite andb_true_r. }
    apply (IH _ _ _ _ Hno) in H as (F & W & S).
    rewrite F, W, S, F1, W1. split; [done|]. split; [done|]. simpl.
    destruct (complete OUTPUT_DIR path_join (files w) i); simpl; lia.
Qed.

(** X10.  When nothing can be fetched.  If the network never answers with
    status 200 (the hosts are down, or know none of the files), a run that
    returns has written nothing and left the disk as it was, and it counts
    as successes exactly the entries whose files were all on disk before
    it started; every other entry is counted as failed. *)
Theorem main_with_nothing_served fuel (w : World) c w' :
  never_200 net ->
  run fuel icons w = Some (c, w') ->
  files w' = files w /\
  writes (trace w') = writes (trace w) /\
  success c = length (List.filter
                (complete OUTPUT_DIR path_join (files w)) icons) /\
  (success c + failed c = length icons)%nat.
Proof.
  intros Hno H. apply main_unfold in H as (w1 & Hl & ->).
  pose proof (main_loop_summary _ _ _ _ _ _ _ _ _ _ _ Hl) as (_ & Hsum & _).
  apply (main_loop_never_200 _ _ _ _ _ _ Hno) in Hl as (F & W & S).
  simpl in *. rewrite writes_app, W, writes_app. simpl.
  rewrite !app_nil_r. split; [done|]. split; [done|]. split; [done | lia].
Qed.

(** *** Where a run writes *)

Lemma replay_subseteq (evs : list Event) : forall fs,
  writes_fresh fs evs -> fs ⊆ replay fs evs.
Proof.
  induction evs as [|[u|p d|l] evs IH]; intros fs Hw; simpl in *; auto.
  destruct Hw as [Hp Hw]. etrans; [|by apply IH]. by apply insert_subseteq.
Qed.

Lemma written_once (evs : list Event) : forall fs p d,
  writes_fresh fs evs ->
  Write p d ∈ evs ->
  fs !! p = None /\ replay fs evs !! p = Some d.
Proof.
  induction evs as [|e evs IH]; intros fs p d Hw Hin;
    [by apply elem_of_nil in Hin|].
  apply elem_of_cons in Hin as [<-|Hin]; simpl in *.
  - destruct Hw as [Hp Hw]. split; [done|].
    eapply lookup_weaken; [|by apply replay_subseteq].
    apply lookup_insert_eq.
  - destruct e as [u|q e|l]; simpl in *; [by apply IH | | by apply IH].
    destruct Hw as [Hq Hw]. destruct (IH _ _ _ Hw Hin) as [Hn Hr].
    split; [|done].
    destruct (decide (q = p)) as [->|Hne]; [by rewrite lookup_insert_eq in Hn|].
    by rewrite lookup_insert_ne in Hn.
Qed.

Lemma replay_frame (evs : list Event) : forall fs p,
  (forall d, Write p d ∉ evs) ->
  replay fs evs !! p = fs !! p.
Proof.
  induction evs as [|e evs IH]; intros fs p Hno; [done|].
  assert (forall d, Write p d ∉ evs) as Hno'
    by (intros d Hin; apply (Hno d); by right).
  destruct e as [u|q e|l]; simpl; rewrite IH by done; [done| |done].
  apply lookup_insert_ne. intros ->. apply (Hno e). by left.
Qed.

Lemma block_writes key0 suffix (b : list Event) p d :
  attempt_block OUTPUT_DIR path_join key0 suffix b ->
  Write p d ∈ b ->
  p = path_at (key0, suffix).
Proof.
  destruct 1 as [|evs line Hq Hl]; intros Hin.
  - by apply list_elem_of_singleton in Hin.
  - apply elem_of_cons in Hin as [?|Hin]; [done|].
    apply elem_of_app in Hin as [Hin|Hin].
    + rewrite Forall_forall in Hq. by apply Hq in Hin.
    + by apply list_elem_of_singleton in Hin.
Qed.

Lemma blocks_writes (ts : list (string * string)) (blocks : list (list Event)) p d :
  Forall2 (fun t b => attempt_block OUTPUT_DIR path_join t.1 t.2 b) ts blocks ->
  Write p d ∈ concat blocks ->
  exists t, t ∈ ts /\ p = path_at t.
Proof.
  induction 1 as [|t b ts bs Hb _ IH]; simpl; intros Hin;
    [by apply elem_of_nil in Hin|].
  apply elem_of_app in Hin as [Hin|Hin].
  - exists t. split; [by left|]. destruct t as [k s].
    by eapply block_writes.
  - destruct (IH Hin) as (t' & Ht' & ->). exists t'. split; [by right | done].
Qed.

Lemma writes_fresh_once (evs : list Event) : forall fs,
  writes_fresh fs evs -> NoDup (writes evs).*1.
Proof.
  induction evs as [|e evs IH]; intros fs Hw; [constructor|].
  destruct e as [u|p d|l]; simpl in *; [by eapply IH | | by eapply IH].
  destruct Hw as [Hp Hw]. constructor; [|by eapply IH].
  intros Hin. apply list_elem_of_fmap in Hin as ([q d'] & Hq & Hin).
  simpl in Hq. subst q.
  assert (Write p d' ∈ evs) as Hin'.
  { unfold writes in Hin. apply list_elem_of_omap in Hin as (e & He & Hsome).
    destruct e as [u|q e|l]; inversion Hsome; by subst. }
  destruct (written_once _ _ _ _ Hw Hin') as [Hn _].
  by rewrite lookup_insert_eq in Hn.
Qed.


(** *** What the summary counts *)

Lemma main_body_frame fuel i c (w : World) c' w' p :
  run_body fuel icons i c w = Some (c', w') ->
  (forall t, t ∈ targets_of i -> p <> path_at t) ->
  files w' !! p = files w !! p.
Proof.
  intros H Hp. unfold targets_of in Hp. destruct (hasTheme i) eqn:Ht.
  - apply main_body_themed in H as (l & d & wl & Hl & Hd & _); [|done].
    rewrite (resolution_frame _ _ _ _ _ _ _ _ _ _ _ p Hd),
            (resolution_frame _ _ _ _ _ _ _ _ _ _ _ p Hl); [done| |].
    + apply (Hp (key i, "-light")). by left.
    + apply (Hp (key i, "-dark")). right. by left.
  - apply main_body_plain in H as (ok & Hd & _); [|done].
    rewrite (resolution_frame _ _ _ _ _ _ _ _ _ _ _ p Hd); [done|].
    apply (Hp (key i, "")). by left.
Qed.

Lemma main_loop_frame fuel rest p : forall c (w : World) c' w',
  run_loop fuel icons rest c w = Some (c', w') ->
  (forall t, t ∈ targets rest -> p <> path_at t) ->
  files w' !! p = files w !! p.
Proof.
  induction rest as [|i rest IH]; intros c w c' w' H Hp; simpl in H.
  - by inversion H; subst.
  - unfold bind in H.
    destruct (run_body fuel icons i c w) as [[c1 w1]|] eqn:Hb; [|done].
    rewrite (IH _ _ _ _ H), (main_body_frame _ _ _ _ _ _ _ Hb); [done| |];
      intros t Ht; apply Hp; unfold targets; simpl; apply elem_of_app; auto.
Qed.

(** The result of a resolution tells whether the file is there. *)
Lemma resolution_tells fuel key0 suffix (w : World) ok w' :
  settled fuel key0 suffix w ok w' ->
  ok = bool_decide (is_Some (files w' !! path_at (key0, suffix))).
Proof.
  intros H. destruct ok.
  - apply resolution_true in H. by rewrite bool_decide_eq_true_2.
  - apply resolution_false in H as [Hn Hs]. simpl.
    rewrite bool_decide_eq_false_2; [done|]. rewrite Hs, Hn. by intros [? ?].
Qed.

Lemma main_body_counts_complete fuel i c (w : World) c' w' :
  NoDup (path_at <$> targets_of i) ->
  run_body fuel icons i c w = Some (c', w') ->
  c' = count (complete OUTPUT_DIR path_join (files w') i) c.
Proof.
  intros Hnd H. unfold complete, targets_of in *.
  destruct (hasTheme i) eqn:Ht; simpl in *.
  - apply main_body_themed in H as (l & d & wl & Hl & Hd & ->); [|done].
    apply NoDup_cons in Hnd as [Hne _].
    assert (outputPath OUTPUT_DIR path_join (key i) "-light"
            <> outputPath OUTPUT_DIR path_join (key i) "-dark") as Hne'
      by (intros E; apply Hne; rewrite E; by left).
    pose proof (resolution_tells _ _ _ _ _ _ Hl) as El.
    pose proof (resolution_tells _ _ _ _ _ _ Hd) as Ed.
    pose proof (resolution_frame _ _ _ _ _ _ _ _ _ _ _ _ Hd Hne') as Hfr.
    simpl in El, Ed. rewrite Hfr, <- El, <- Ed. by rewrite andb_true_r.
  - apply main_body_plain in H as (ok & Hd & ->); [|done].
    pose proof (resolution_tells _ _ _ _ _ _ Hd) as Ed.
    simpl in Ed. rewrite <- Ed. by rewrite andb_true_r.
Qed.

Lemma complete_frame (fs fs' : gmap string string) i :
  (forall t, t ∈ targets_of i -> fs' !! path_at t = fs !! path_at t) ->
  complete OUTPUT_DIR path_join fs' i = complete OUTPUT_DIR path_join fs i.
Proof.
  unfold complete. generalize (targets_of i).
  induction l as [|t l IH]; intros H; simpl; [done|].
  rewrite IH by (intros t' Ht'; apply H; by right).
  f_equal. apply bool_decide_ext. by rewrite (H t) by (by left).
Qed.

Lemma main_loop_counts_complete fuel rest : forall c (w : World) c' w',
  NoDup (path_at <$> targets rest) ->
  run_loop fuel icons rest c w = Some (c', w') ->
  success c' = (success c + length (List.filter
                  (complete OUTPUT_DIR path_join (files w')) rest))%nat.
Proof.
  induction rest as [|i rest IH]; intros c w c' w' Hnd H; simpl in H.
  - inversion H; subst. simpl. lia.
  - unfold bind in H.
    destruct (run_body fuel icons i c w) as [[c1 w1]|] eqn:Hb; [|done].
    unfold targets in Hnd. simpl in Hnd. rewrite fmap_app in Hnd.
    apply NoDup_app in Hnd as (Hnd1 & Hdisj & Hnd2).
    apply (main_body_counts_complete _ _ _ _ _ _ Hnd1) in Hb as Hc.
    pose proof (IH _ _ _ _ Hnd2 H) as Hs.
    assert (complete OUTPUT_DIR path_join (files w') i
            = complete OUTPUT_DIR path_join (files w1) i) as Hsame.
    { apply complete_frame. intros t Ht.
      apply (main_loop_frame _ _ _ _ _ _ _ H). intros t' Ht' E.
      apply (Hdisj (path_at t)).
      - exact (list_elem_of_fmap_2 path_at _ t Ht).
      - simpl. rewrite E. exact (list_elem_of_fmap_2 path_at _ t' Ht'). }
    rewrite Hs, Hc. simpl. rewrite Hsame.
    destruct (complete OUTPUT_DIR path_join (files w1) i); simpl; lia.
Qed.


End MoreMain.

Lemma main_returns_when_redirects_end_witness :
  exists c w',
    (success c + failed c = length ICONS)%nat /\
    forall k : nat,
      main Sample.dir Sample.join Sample.net_404 Sample.sound (1 + k) ICONS
        Sample.empty_disk = Some (c, w').
Proof.
  apply (main_returns_when_redirects_end Sample.dir Sample.join
           Sample.net_404 Sample.sound ICONS 1 Sample.empty_disk).
  intros h url. exists [url], Sample.missing.
  split; [apply follows_last; reflexivity | simpl; lia].
Defined.

Lemma main_stalls_on_redirect_loop_witness :
  (forall fuel,
     downloadIcon Sample.dir Sample.join Sample.net_loop Sample.sound fuel
       Sample.two_icons "nextjs2" "-dark" Sample.empty_disk = None) /\
  (forall fuel,
     main Sample.dir Sample.join Sample.net_loop Sample.sound fuel Sample.two_icons
       Sample.empty_disk = None).
Proof.
  apply (main_stalls_on_redirect_loop Sample.dir Sample.join Sample.net_loop
      Sample.sound
           Sample.two_icons ("nextjs2", "-dark") Sample.empty_disk).
  - intros h. eexists. split; reflexivity.
  - reflexivity.
  - unfold targets, Sample.two_icons. simpl. right. by left.
  - intros t' Hin E. unfold targets, Sample.two_icons in Hin. simpl in Hin.
    repeat (apply elem_of_cons in Hin as [->|Hin];
            [first [reflexivity | by vm_compute in E]|]).
    by apply elem_of_nil in Hin.
Defined.

Lemma main_with_nothing_served_witness :
  exists c w',
    main Sample.dir Sample.join Sample.net_404 Sample.sound 1 Sample.two_icons
      Sample.disk_with_rust = Some (c, w') /\
    c = mkCounters 1 1 /\
    files w' = files Sample.disk_with_rust /\
    writes (trace w') = [] /\
    success c = length (List.filter
                  (complete Sample.dir Sample.join (files Sample.disk_with_rust))
                  Sample.two_icons) /\
    (success c + failed c = length Sample.two_icons)%nat.
Proof.
  destruct (main Sample.dir Sample.join Sample.net_404 Sample.sound 1 Sample.two_icons
              Sample.disk_with_rust) as [[c w']|] eqn:H; [|by vm_compute in H].
  exists c, w'. split; [done|]. split; [vm_compute in H; by inversion H|].
  apply (main_with_nothing_served Sample.dir Sample.join Sample.net_404 Sample.sound
           Sample.two_icons 1 Sample.disk_with_rust c w'); [|exact H].
  intros h url r Hr. inversion Hr; subst. discriminate.
Defined.



(** X13.  Success sticks.  Once [downloadIcon] has returned [true] for a
    target, any later call for the same target, on any disk that still
    holds the files of that moment, with any fuel and whatever the network
    and the environment have become, returns [true] without a request or a
    write and leaves the disk as it finds it. *)
Theorem downloadIcon_success_sticks
    (OUTPUT_DIR : string) (path_join : string -> string -> string)
    (net net' : Network) (writable writable' : string -> string -> bool)
    fuel fuel' icons icons' key0 suffix
    (w w1 later : World) :
  downloadIcon OUTPUT_DIR path_join net writable fuel icons key0 suffix w
  = Some (true, w1) ->
  files w1 ⊆ files later ->
  exists w2,
    downloadIcon OUTPUT_DIR path_join net' writable' fuel' icons' key0 suffix
      later = Some (true, w2) /\
    files w2 = files later /\
    requests (trace w2) = requests (trace later) /\
    writes (trace w2) = writes (trace later).
Proof.
  intros H Hsub. apply downloadIcon_resolution, resolution_true in H as [x Hx].
  eapply lookup_weaken in Hx; [|exact Hsub].
  eexists. split; [apply downloadIcon_exists; eauto|].
  simpl. by rewrite requests_app, writes_app, !app_nil_r.
Qed.

Lemma downloadIcon_success_sticks_witness :
  let p := Sample.join Sample.dir "rust.svg" in
  let w1 := mkWorld {[ p := "<svg>...</svg>" ]}
              [Get (primary_url "rust" ""); Get (fallback_url "rust");
               Write p "<svg>...</svg>"; Log "✓ rust.svg (simpleicons)"] in
  exists w2,
    downloadIcon Sample.dir Sample.join Sample.net_404 Scenario.read_only 0 []
      "rust" "" w1 = Some (true, w2) /\
    files w2 = files w1 /\
    requests (trace w2) = requests (trace w1) /\
    writes (trace w2) = writes (trace w1).
Proof.
  intros p w1.
  apply (downloadIcon_success_sticks Sample.dir Sample.join Sample.net_rust
           Sample.net_404 Sample.sound Scenario.read_only 1 0 ICONS []
           "rust" "" Sample.empty_disk w1 w1).
  - reflexivity.
  - reflexivity.
Defined.
